(** * Satellite optical brightness: shadow and effective-area engine

    A shallow embedding of the geometric core of the repository:

    - [Effective_Area_Calculation.py]  (class [ShadowCalculator], angle input)
    - [analysis/ABmag_SolarPhaseAngle_new.py]  (class [ShadowCalculator],
      Cartesian input, with [cartesian_to_spherical])
    - [altitude_azimuth_filter.py]  ([satellite_to_observer_frame])
    - the functions after the class in [ABmag_SolarPhaseAngle_new.py]
      ([calculate_solar_phase_angle], [process_vectors],
      [calculate_angle_with_neg_z] and its filter)
    - [altitudechange/import csv.py]  ([calculate_angles]) and
      [altitudechange/Calculate_Eff_Area.py]  ([calculate_effective_area])
    - [off-operation/normal.py]  ([rotation_matrix], [rotate_vector]) and
      [off-operation/Off_Operation.py]  ([unit_vector])
    - [Vector_Pairs.py]  ([fibonacci_sphere_sampling])

    Python floats are modelled by the real numbers of the Standard Library:
    rounding, underflow and the special values of binary64 are outside the
    model, with two exceptions. The value [float('inf')] that the
    angle-input calculator writes explicitly is kept, through the type
    [xreal]; and the [OverflowError] that [x ** 2] raises on a float is
    kept in [cartesian_to_spherical], through [float_pow]. The hypothesis
    [in_normal_range] keeps a statement to the components whose squares
    are neither too large nor too small for binary64.
    The polygon library (shapely) is not part of the repository; it enters
    through the interface [PolygonSetOps] and the laws [PolygonSetOpsLaws]. *)

From Stdlib Require Import Reals Lra Lia List ZArith Bool String.
Import ListNotations.

Open Scope R_scope.

(** ** Python numerics *)

Module PyNum.

(** [a % m] on floats: the result has the sign of the divisor,
    [a - m * floor (a / m)]. *)
Definition py_mod (a m : R) : R := a - m * IZR (Zfloor (a / m)).

(** Comparisons of floats, as booleans. *)
Definition Rleb (a b : R) : bool := if Rle_dec a b then true else false.
Definition Rltb (a b : R) : bool := if Rlt_dec a b then true else false.
Definition Reqb (a b : R) : bool := if Req_dec_T a b then true else false.

(** [math.radians] and [math.degrees]. *)
Definition radians (x : R) : R := x * (PI / 180).
Definition degrees (x : R) : R := x * (180 / PI).

(** [math.isclose(a, b, abs_tol=abs_tol)], with the default
    [rel_tol = 1e-09]:
    [abs(a-b) <= max(rel_tol * max(abs(a), abs(b)), abs_tol)]. *)
Definition rel_tol : R := 1e-9.

Definition isclose (a b abs_tol : R) : bool :=
  if Rle_dec (Rabs (a - b))
             (Rmax (rel_tol * Rmax (Rabs a) (Rabs b)) abs_tol)
  then true else false.

(** [max(lo, min(hi, x))]. *)
Definition clamp (lo hi x : R) : R := Rmax lo (Rmin hi x).

End PyNum.

Import PyNum.

(** ** Quadrants

    [get_quadrant] returns the integers 1 to 4; they are used only as tags
    compared with [==]. *)

Inductive quadrant : Type := Q1 | Q2 | Q3 | Q4.

Definition quadrant_number (q : quadrant) : Z :=
  match q with Q1 => 1 | Q2 => 2 | Q3 => 3 | Q4 => 4 end%Z.

Definition quadrant_eqb (a b : quadrant) : bool :=
  (quadrant_number a =? quadrant_number b)%Z.

(** ** Exceptions

    A computation either raises or returns a value. *)

Inductive exn : Type := AttributeError | ValueError | OverflowError.

Definition M (A : Type) : Type := (exn + A)%type.

Definition ret {A : Type} (a : A) : M A := inr a.
Definition raise {A : Type} (e : exn) : M A := inl e.
Definition bind {A B : Type} (m : M A) (k : A -> M B) : M B :=
  match m with
  | inl e => inl e
  | inr a => k a
  end.

Notation "x <- m ;; k" := (bind m (fun x => k))
  (at level 61, m at next level, right associativity).
Notation "' p <- m ;; k" := (bind m (fun x => let p := x in k))
  (at level 61, p pattern, m at next level, right associativity).

(** [math.asin] and [math.sqrt] raise [ValueError] outside their domain. *)
Definition math_asin (x : R) : M R :=
  if Rle_dec (-1) x then
    if Rle_dec x 1 then ret (asin x) else raise ValueError
  else raise ValueError.

Definition math_sqrt (x : R) : M R :=
  if Rle_dec 0 x then ret (sqrt x) else raise ValueError.

(** [x ** n] on a Python float raises [OverflowError] when the result is
    too large for binary64: when its magnitude reaches [2^1024 - 2^970], the
    least real that rounding to nearest takes to infinity. *)
Definition overflow_threshold : R := IZR (2 ^ 1024 - 2 ^ 970).

Definition float_pow (x : R) (n : nat) : M R :=
  if Rleb overflow_threshold (Rabs (x ^ n)) then raise OverflowError
  else ret (x ^ n).

(** The components on which binary64 squares, sums of three squares and
    quotients by the length neither overflow nor underflow: zero, or a
    magnitude between 1e-150 and 1e150. *)
Definition in_normal_range (c : R) : Prop :=
  c = 0 \/ 1e-150 <= Rabs c <= 1e150.

(** ** Floats that may be infinite

    The angle-input calculator produces [float('inf')] on purpose; the
    values that can follow from it are kept apart from the reals. *)

Inductive xreal : Type :=
  | Fin (r : R)
  | PInf
  | NInf
  | NaN.

Definition xopp (a : xreal) : xreal :=
  match a with
  | Fin r => Fin (- r)
  | PInf => NInf
  | NInf => PInf
  | NaN => NaN
  end.

(** An infinity times a finite factor: the sign of the factor decides,
    a zero factor gives NaN. *)
Definition xinf_scale (positive : bool) (r : R) : xreal :=
  if Rlt_dec 0 r then (if positive then PInf else NInf)
  else if Rlt_dec r 0 then (if positive then NInf else PInf)
  else NaN.

Definition xmul (a b : xreal) : xreal :=
  match a, b with
  | Fin r, Fin s => Fin (r * s)
  | NaN, _ | _, NaN => NaN
  | PInf, Fin s => xinf_scale true s
  | NInf, Fin s => xinf_scale false s
  | Fin r, PInf => xinf_scale true r
  | Fin r, NInf => xinf_scale false r
  | PInf, PInf | NInf, NInf => PInf
  | PInf, NInf | NInf, PInf => NInf
  end.

Definition xadd (a b : xreal) : xreal :=
  match a, b with
  | Fin r, Fin s => Fin (r + s)
  | NaN, _ | _, NaN => NaN
  | PInf, NInf | NInf, PInf => NaN
  | PInf, _ | _, PInf => PInf
  | NInf, _ | _, NInf => NInf
  end.

Definition xsub (a b : xreal) : xreal := xadd a (xopp b).


(** ** The polygon library

    Coordinates are floats; a polygon is given by its ring of points. *)

Definition pt : Type := (xreal * xreal)%type.

Definition fin_pt (x y : R) : pt := (Fin x, Fin y).

(** The ring [(0,0), (w,0), (w,h), (0,h)]. *)
Definition rectangle (w h : R) : list pt :=
  [fin_pt 0 0; fin_pt w 0; fin_pt w h; fin_pt 0 h].

(** The operations of shapely that the calculators call.
    [exterior_coords g] is [list(g.exterior.coords)]; only a Polygon has the
    attribute [exterior], any other geometry raises [AttributeError].
    [hasattr_area g] is [hasattr(g, 'area')]. *)
Class PolygonSetOps : Type := {
  geometry : Type;
  Polygon : list pt -> geometry;
  intersection : geometry -> geometry -> geometry;
  unary_union : list geometry -> geometry;
  difference : geometry -> geometry -> geometry;
  is_empty : geometry -> bool;
  exterior_coords : geometry -> option (list pt);
  area : geometry -> R;
  hasattr_area : geometry -> bool
}.

(** What the proofs use of the library: every geometry has an area; the
    area of a difference and of the matching intersection add up to the
    area of the whole; an axis-aligned rectangle anchored at the origin has
    area width times height; and two such rectangles of the same width meet
    in the lower one, a non-empty Polygon. *)
Class PolygonSetOpsLaws (P : PolygonSetOps) : Prop := {
  hasattr_area_all : forall g : geometry, hasattr_area g = true;
  area_difference : forall a b : geometry,
    area (difference a b) + area (intersection b a) = area a;
  area_rectangle : forall w h : R, 0 <= w -> 0 <= h ->
    area (Polygon (rectangle w h)) = w * h;
  rectangle_intersection : forall w h h' : R, 0 < w -> 0 < h -> 0 < h' ->
    let g := intersection (Polygon (rectangle w h)) (Polygon (rectangle w h'))
    in is_empty g = false
       /\ exterior_coords g <> None
       /\ area g = w * Rmin h h'
}.

(** ** The calculator object

    [__init__] stores [L], [D], [H] (defaults from [CONFIG]) and derives
    [A_SA] and [A_chassis] from them. *)

Record ShadowCalculator : Type := {
  L : R;
  D : R;
  H : R
}.

Definition CONFIG : ShadowCalculator := {| L := 1.3; D := 2.8; H := 8.1 |}.

Definition A_SA (self : ShadowCalculator) : R := D self * H self.
Definition A_chassis (self : ShadowCalculator) : R := L self * D self.

(** ** Effective_Area_Calculation.py: the angle-input calculator *)

Module EffectiveArea.
Section Methods.
Context {P : PolygonSetOps}.
Variable self : ShadowCalculator.

(** [get_quadrant]: quadrant 3 is [180 <= phi <= 270]. *)
Definition get_quadrant (phi_deg : R) : quadrant :=
  let phi := py_mod phi_deg 360 in
  if Rleb 0 phi && Rltb phi 90 then Q1
  else if Rleb 90 phi && Rltb phi 180 then Q2
  else if Rleb 180 phi && Rleb phi 270 then Q3
  else Q4.

(** The locals of the general case of [calculate_shadow]:
    [1 / math.tan(phi) if math.tan(phi) != 0 else float('inf')]. *)
Definition cot_phi (phi_deg : R) : xreal :=
  let phi := radians phi_deg in
  if negb (Reqb (tan phi) 0) then Fin (1 / tan phi) else PInf.

Definition x_offset (phi_deg theta_deg : R) : xreal :=
  xmul (xmul (Fin (L self)) (cot_phi phi_deg)) (Fin (sin (radians theta_deg))).

Definition y_offset (phi_deg theta_deg : R) : xreal :=
  xmul (xmul (Fin (L self)) (cot_phi phi_deg)) (Fin (cos (radians theta_deg))).

Definition shadow_poly (phi_deg theta_deg : R) : geometry :=
  if isclose (py_mod phi_deg 180) 90 1e-9 then
    Polygon [fin_pt 0 0; fin_pt (D self) 0;
             fin_pt (D self) (L self); fin_pt 0 (L self)]
  else
    Polygon [fin_pt 0 0; fin_pt (D self) 0;
             (xsub (Fin (D self)) (x_offset phi_deg theta_deg),
              y_offset phi_deg theta_deg);
             (xopp (x_offset phi_deg theta_deg),
              y_offset phi_deg theta_deg)].

Definition calculate_shadow (phi_deg theta_deg : R) : M (list pt * R) :=
  let solar_array_rect :=
    Polygon [fin_pt 0 0; fin_pt (D self) 0;
             fin_pt (D self) (H self); fin_pt 0 (H self)] in
  let shadow_intersection :=
    intersection (shadow_poly phi_deg theta_deg) solar_array_rect in
  if is_empty shadow_intersection then ret ([], 0)
  else
    match exterior_coords shadow_intersection with
    | None => raise AttributeError
    | Some vertices => ret (vertices, area shadow_intersection)
    end.

Definition calculate_combined_non_shadow (phi_i theta_i phi_o theta_o : R)
  : M (R * geometry) :=
  '(v_i, _) <- calculate_shadow phi_i theta_i ;;
  '(v_o, _) <- calculate_shadow phi_o theta_o ;;
  let rect :=
    Polygon [fin_pt 0 0; fin_pt (D self) 0;
             fin_pt (D self) (H self); fin_pt 0 (H self)] in
  let combined := unary_union [Polygon v_i; Polygon v_o] in
  let non_shadow := difference rect combined in
  let non_shadow_area :=
    if hasattr_area non_shadow then area non_shadow else D self * H self in
  ret (non_shadow_area, combined).

Definition calculate_special_case (phi_i theta_i phi_o theta_o : R) : M R :=
  let quad_i := get_quadrant phi_i in
  let phi_i_adj := if quadrant_eqb quad_i Q1 then 0 else phi_i - 270 in
  let phi_o_adj := phi_o - 270 in
  '(non_shadow_area, _) <-
    calculate_combined_non_shadow phi_i_adj theta_i phi_o_adj theta_o ;;
  ret non_shadow_area.

(** [calculate_effective_area]: both areas start at 0 and the chain of
    [if]/[elif] overwrites them in eight of the sixteen cases. *)
Definition calculate_effective_area (phi_i theta_i phi_o theta_o : R)
  : M (R * R) :=
  let quad_i := get_quadrant phi_i in
  let quad_o := get_quadrant phi_o in
  let A_eff_SA := 0 in
  let A_eff_chassis := 0 in
  if quadrant_eqb quad_i Q1 then
    if quadrant_eqb quad_o Q3 then ret (0, 0)
    else if quadrant_eqb quad_o Q4 then
      A_eff_SA <- calculate_special_case phi_i theta_i phi_o theta_o ;;
      ret (A_eff_SA, 0)
    else ret (A_eff_SA, A_eff_chassis)
  else if quadrant_eqb quad_i Q2 then
    if quadrant_eqb quad_o Q3 then ret (A_SA self, 0)
    else if quadrant_eqb quad_o Q4 then ret (0, 0)
    else ret (A_eff_SA, A_eff_chassis)
  else if quadrant_eqb quad_i Q3 then
    if quadrant_eqb quad_o Q3 then ret (A_SA self, A_chassis self)
    else if quadrant_eqb quad_o Q4 then ret (0, A_chassis self)
    else ret (A_eff_SA, A_eff_chassis)
  else if quadrant_eqb quad_i Q4 then
    if quadrant_eqb quad_o Q3 then ret (0, A_chassis self)
    else if quadrant_eqb quad_o Q4 then
      A_eff_SA <- calculate_special_case phi_i theta_i phi_o theta_o ;;
      ret (A_eff_SA, A_chassis self)
    else ret (A_eff_SA, A_eff_chassis)
  else ret (A_eff_SA, A_eff_chassis).

End Methods.
End EffectiveArea.

(** ** analysis/ABmag_SolarPhaseAngle_new.py: the Cartesian-input calculator *)

Module SolarPhaseAngle.
Section Methods.
Context {P : PolygonSetOps}.
Variable self : ShadowCalculator.

(** [cartesian_to_spherical]. The three squares are computed from left to
    right and each can raise [OverflowError]; a sum of squares that rounds
    to infinity raises nothing and is outside the model. In binary64
    [math.cos(math.asin(z))] is never zero, so the quotient
    [y / math.cos(phi_rad)] does not raise; over the reals the divisor
    vanishes only for [z = -1] after normalisation, where [y = 0] and both
    the float quotient and [Rdiv] give 0. *)
Definition cartesian_to_spherical (x y z : R) : M (R * R) :=
  xx <- float_pow x 2 ;;
  yy <- float_pow y 2 ;;
  zz <- float_pow z 2 ;;
  norm <- math_sqrt (xx + yy + zz) ;;
  if Reqb norm 0 then ret (0, 0)
  else
    let '(x, y, z) := (x / norm, y / norm, z / norm) in
    phi_rad <- math_asin z ;;
    let phi_deg := degrees phi_rad in
    let phi_deg :=
      if Rltb 0 x then py_mod phi_deg 360 else 180 - phi_deg in
    theta_deg <-
      (if isclose (Rabs phi_deg) 90 1e-9 then ret 0
       else
         let sin_theta := y / cos phi_rad in
         let sin_theta := Rmax (-1) (Rmin 1 sin_theta) in
         theta_rad <- math_asin sin_theta ;;
         ret (degrees theta_rad)) ;;
    ret (py_mod phi_deg 360, theta_deg).

(** [get_quadrant]: quadrant 3 is [180 <= phi < 270]. *)
Definition get_quadrant (phi_deg : R) : quadrant :=
  let phi := py_mod phi_deg 360 in
  if Rleb 0 phi && Rltb phi 90 then Q1
  else if Rleb 90 phi && Rltb phi 180 then Q2
  else if Rleb 180 phi && Rltb phi 270 then Q3
  else Q4.

(** The locals of the general case of [calculate_shadow]:
    [1 / max(1e-10, math.tan(phi))], and the offsets limited to
    [max(-1e6, min(1e6, offset))]. *)
Definition cot_phi (phi_deg : R) : R :=
  let phi := radians phi_deg in
  1 / Rmax 1e-10 (tan phi).

Definition x_offset (phi_deg theta_deg : R) : R :=
  let x_offset := L self * cot_phi phi_deg * sin (radians theta_deg) in
  Rmax (-1e6) (Rmin 1e6 x_offset).

Definition y_offset (phi_deg theta_deg : R) : R :=
  let y_offset := L self * cot_phi phi_deg * cos (radians theta_deg) in
  Rmax (-1e6) (Rmin 1e6 y_offset).

Definition shadow_poly (phi_deg theta_deg : R) : geometry :=
  if isclose (py_mod phi_deg 180) 90 1e-9 then
    Polygon [fin_pt 0 0; fin_pt (D self) 0;
             fin_pt (D self) (L self); fin_pt 0 (L self)]
  else
    Polygon [fin_pt 0 0; fin_pt (D self) 0;
             fin_pt (D self - x_offset phi_deg theta_deg)
                    (y_offset phi_deg theta_deg);
             fin_pt (- x_offset phi_deg theta_deg)
                    (y_offset phi_deg theta_deg)].

Definition calculate_shadow (phi_deg theta_deg : R) : M (list pt * R) :=
  let solar_array_rect :=
    Polygon [fin_pt 0 0; fin_pt (D self) 0;
             fin_pt (D self) (H self); fin_pt 0 (H self)] in
  let shadow_intersection :=
    intersection (shadow_poly phi_deg theta_deg) solar_array_rect in
  if is_empty shadow_intersection then ret ([], 0)
  else
    match exterior_coords shadow_intersection with
    | None => raise AttributeError
    | Some vertices => ret (vertices, area shadow_intersection)
    end.

Definition calculate_combined_non_shadow (phi_i theta_i phi_o theta_o : R)
  : M (R * geometry) :=
  '(v_i, _) <- calculate_shadow phi_i theta_i ;;
  '(v_o, _) <- calculate_shadow phi_o theta_o ;;
  let rect :=
    Polygon [fin_pt 0 0; fin_pt (D self) 0;
             fin_pt (D self) (H self); fin_pt 0 (H self)] in
  let combined := unary_union [Polygon v_i; Polygon v_o] in
  let non_shadow := difference rect combined in
  let non_shadow_area :=
    if hasattr_area non_shadow then area non_shadow else D self * H self in
  ret (non_shadow_area, combined).

Definition calculate_special_case (phi_i theta_i phi_o theta_o : R) : M R :=
  let quad_i := get_quadrant phi_i in
  let phi_i_adj := if quadrant_eqb quad_i Q1 then 0 else phi_i - 270 in
  let phi_o_adj := phi_o - 270 in
  '(non_shadow_area, _) <-
    calculate_combined_non_shadow phi_i_adj theta_i phi_o_adj theta_o ;;
  ret non_shadow_area.

(** [calculate_effective_area]: the two directions are converted to angles
    first, then the same chain of cases runs. *)
Definition calculate_effective_area (xi yi zi xo yo zo : R) : M (R * R) :=
  '(phi_i, theta_i) <- cartesian_to_spherical xi yi zi ;;
  '(phi_o, theta_o) <- cartesian_to_spherical xo yo zo ;;
  let quad_i := get_quadrant phi_i in
  let quad_o := get_quadrant phi_o in
  let A_eff_SA := 0 in
  let A_eff_chassis := 0 in
  if quadrant_eqb quad_i Q1 then
    if quadrant_eqb quad_o Q3 then ret (0, 0)
    else if quadrant_eqb quad_o Q4 then
      A_eff_SA <- calculate_special_case phi_i theta_i phi_o theta_o ;;
      ret (A_eff_SA, 0)
    else ret (A_eff_SA, A_eff_chassis)
  else if quadrant_eqb quad_i Q2 then
    if quadrant_eqb quad_o Q3 then ret (A_SA self, 0)
    else if quadrant_eqb quad_o Q4 then ret (0, 0)
    else ret (A_eff_SA, A_eff_chassis)
  else if quadrant_eqb quad_i Q3 then
    if quadrant_eqb quad_o Q3 then ret (A_SA self, A_chassis self)
    else if quadrant_eqb quad_o Q4 then ret (0, A_chassis self)
    else ret (A_eff_SA, A_eff_chassis)
  else if quadrant_eqb quad_i Q4 then
    if quadrant_eqb quad_o Q3 then ret (0, A_chassis self)
    else if quadrant_eqb quad_o Q4 then
      A_eff_SA <- calculate_special_case phi_i theta_i phi_o theta_o ;;
      ret (A_eff_SA, A_chassis self)
    else ret (A_eff_SA, A_eff_chassis)
  else ret (A_eff_SA, A_eff_chassis).

End Methods.
End SolarPhaseAngle.

(** ** altitude_azimuth_filter.py: the observer frame *)

Module ObserverFrame.

(** A numpy array of three floats, and a 3x3 array as its three rows. *)
Definition vec3 : Type := (R * R * R)%type.
Definition mat3 : Type := (vec3 * vec3 * vec3)%type.

Definition norm (v : vec3) : R :=
  let '(x, y, z) := v in sqrt (x * x + y * y + z * z).

(** The arrays whose three components are in the normal range. *)
Definition vec_in_normal_range (v : vec3) : Prop :=
  let '(x, y, z) := v in
  in_normal_range x /\ in_normal_range y /\ in_normal_range z.

Definition scale (c : R) (v : vec3) : vec3 :=
  let '(x, y, z) := v in (c * x, c * y, c * z).

Definition div (v : vec3) (c : R) : vec3 :=
  let '(x, y, z) := v in (x / c, y / c, z / c).

Definition neg (v : vec3) : vec3 :=
  let '(x, y, z) := v in (- x, - y, - z).

Definition sub (u v : vec3) : vec3 :=
  let '(a, b, c) := u in let '(x, y, z) := v in (a - x, b - y, c - z).

Definition dot (u v : vec3) : R :=
  let '(a, b, c) := u in let '(x, y, z) := v in a * x + b * y + c * z.

Definition cross (u v : vec3) : vec3 :=
  let '(a, b, c) := u in
  let '(x, y, z) := v in
  (b * z - c * y, c * x - a * z, a * y - b * x).

(** [np.vstack([r1, r2, r3])], [.T] and [@]. *)
Definition vstack (r1 r2 r3 : vec3) : mat3 := (r1, r2, r3).

Definition transpose (m : mat3) : mat3 :=
  let '((a, b, c), (d, e, f), (g, h, k)) := m in
  ((a, d, g), (b, e, h), (c, f, k)).

Definition matvec (m : mat3) (v : vec3) : vec3 :=
  let '(r1, r2, r3) := m in (dot r1 v, dot r2 v, dot r3 v).

(** [np.arctan2 y x], the angle of the point [(x, y)] in [(-pi, pi]]. *)
Definition arctan2 (y x : R) : R :=
  if Rltb 0 x then atan (y / x)
  else if Rltb x 0 then
    (if Rleb 0 y then atan (y / x) + PI else atan (y / x) - PI)
  else if Rltb 0 y then PI / 2
  else if Rltb y 0 then - (PI / 2)
  else 0.

Definition xyz_to_alt_az (v : vec3) : R * R :=
  let '(x, y, z) := v in
  let azimuth := py_mod (arctan2 y x) (2 * PI) in
  let altitude := asin (z / norm v) in
  (degrees altitude, degrees azimuth).

(** The frame built from the two directions: [(x_s, y_s, z_s)]. *)
Definition frame (i_xyz o_xyz : vec3) : vec3 * vec3 * vec3 :=
  let i_xyz := div i_xyz (norm i_xyz) in
  let o_xyz := div o_xyz (norm o_xyz) in
  let z_s := neg o_xyz in
  let cross_product := cross z_s i_xyz in
  let cross_norm := norm cross_product in
  let y_s :=
    if Rltb cross_norm 1e-10 then
      let y_s := (0, 1, 0) in
      let y_s := sub y_s (scale (dot y_s z_s) z_s) in
      if Rltb (norm y_s) 1e-10 then (1, 0, 0) else y_s
    else div cross_product cross_norm in
  let x_s := cross y_s z_s in
  let x_s := div x_s (norm x_s) in
  (x_s, y_s, z_s).

Definition satellite_to_observer_frame (i_xyz o_xyz : vec3)
  : R * R * R * R :=
  let '(x_s, y_s, z_s) := frame i_xyz o_xyz in
  let i_xyz := div i_xyz (norm i_xyz) in
  let o_xyz := div o_xyz (norm o_xyz) in
  let T := transpose (vstack x_s y_s z_s) in
  let v_sun_observer := matvec T i_xyz in
  let v_sat_observer := matvec T (neg o_xyz) in
  let '(sun_alt, sun_az) := xyz_to_alt_az v_sun_observer in
  let '(sat_alt, sat_az) := xyz_to_alt_az v_sat_observer in
  (sun_alt, sun_az, sat_alt, sat_az).

End ObserverFrame.

(** ** The specification's side

    Definitions that follow the words of the specification, to be compared
    with the code. *)

Module Spec.

(** The case table of the effective-area classifier: eight rows, and
    [(0, 0)] for every pair that is not listed. *)
Definition case_table (A_SA A_chassis : R) (special_case : M R)
  (quad_i quad_o : quadrant) : M (R * R) :=
  match quad_i, quad_o with
  | Q1, Q3 => ret (0, 0)
  | Q1, Q4 => a <- special_case ;; ret (a, 0)
  | Q2, Q3 => ret (A_SA, 0)
  | Q2, Q4 => ret (0, 0)
  | Q3, Q3 => ret (A_SA, A_chassis)
  | Q3, Q4 => ret (0, A_chassis)
  | Q4, Q3 => ret (0, A_chassis)
  | Q4, Q4 => a <- special_case ;; ret (a, A_chassis)
  | _, _ => ret (0, 0)
  end.

(** True when the pair is one of the two special cases. *)
Definition is_special (quad_i quad_o : quadrant) : bool :=
  match quad_i, quad_o with
  | Q1, Q4 | Q4, Q4 => true
  | _, _ => false
  end.

(** [tan(phi)] clamped away from 0 to a minimum magnitude of [1e-10]:
    the sign is kept, the magnitude is raised to the floor. *)
Definition clamp_away (t : R) : R :=
  if Rleb 1e-10 (Rabs t) then t
  else if Rltb t 0 then - 1e-10 else 1e-10.

(** [cot(phi) = 1/tan(phi)] with the clamped tangent. *)
Definition cot_phi (phi_deg : R) : R := 1 / clamp_away (tan (radians phi_deg)).

(** The observer-frame transform with both vectors projected through the
    transpose of [T], where [T] has the columns [(x_s, y_s, z_s)]. *)
Definition observer_frame_transform (sun_dir sat_dir : ObserverFrame.vec3)
  : R * R * R * R :=
  let '(x_s, y_s, z_s) := ObserverFrame.frame sun_dir sat_dir in
  let sun := ObserverFrame.div sun_dir (ObserverFrame.norm sun_dir) in
  let sat := ObserverFrame.div sat_dir (ObserverFrame.norm sat_dir) in
  let T := ObserverFrame.transpose (ObserverFrame.vstack x_s y_s z_s) in
  let Tt := ObserverFrame.transpose T in
  let '(sun_alt, sun_az) :=
    ObserverFrame.xyz_to_alt_az (ObserverFrame.matvec Tt sun) in
  let '(sat_alt, sat_az) :=
    ObserverFrame.xyz_to_alt_az
      (ObserverFrame.matvec Tt (ObserverFrame.neg sat)) in
  (sun_alt, sun_az, sat_alt, sat_az).

End Spec.

(** ** A model of the polygon interface

    Every region is a strip [[0,1] x [0,a]], given by its height [a], which
    is also its area. The strips are nested, so the intersection is the
    lower one and the union the higher one. A ring of points is mapped to
    the strip of the same area (shoelace formula); a ring with a coordinate
    that is not finite is mapped to the empty strip. *)

Module StripModel.

Definition fin_coords (p : pt) : option (R * R) :=
  match p with
  | (Fin x, Fin y) => Some (x, y)
  | _ => None
  end.

Fixpoint fin_ring (ps : list pt) : option (list (R * R)) :=
  match ps with
  | [] => Some []
  | p :: ps' =>
      match fin_coords p, fin_ring ps' with
      | Some q, Some qs => Some (q :: qs)
      | _, _ => None
      end
  end.

(** Twice the signed area of the open chain, closed by [first]. *)
Fixpoint shoelace2 (first : R * R) (ps : list (R * R)) : R :=
  match ps with
  | [] => 0
  | [p] => fst p * snd first - fst first * snd p
  | p :: ((q :: _) as ps') =>
      (fst p * snd q - fst q * snd p) + shoelace2 first ps'
  end.

Definition ring_area (ps : list (R * R)) : R :=
  match ps with
  | [] => 0
  | p :: _ => Rabs (shoelace2 p ps) / 2
  end.

Definition strip_of_ring (ps : list pt) : R :=
  match fin_ring ps with
  | Some qs => ring_area qs
  | None => 0
  end.

Definition strip_ring (a : R) : list pt :=
  [fin_pt 0 0; fin_pt 1 0; fin_pt 1 a; fin_pt 0 a; fin_pt 0 0].

#[local] Instance ops : PolygonSetOps := {|
  geometry := R;
  Polygon := strip_of_ring;
  intersection := Rmin;
  unary_union := fun gs => fold_right Rmax 0 gs;
  difference := fun a b => a - Rmin a b;
  is_empty := fun a => Reqb a 0;
  exterior_coords := fun a => Some (strip_ring a);
  area := fun a => a;
  hasattr_area := fun _ => true
|}.

(** The shadow of the default panel under vertical light: the strip of
    height [min (D*L) (D*H)]. *)
Definition strip_shadow : R :=
  Rmin (strip_of_ring (rectangle (D CONFIG) (L CONFIG)))
       (strip_of_ring (rectangle (D CONFIG) (H CONFIG))).

End StripModel.

(** ** analysis/ABmag_SolarPhaseAngle_new.py: the functions after the class *)

Module PhaseAngle.

(** [math.acos] raises [ValueError] outside [-1, 1]. *)
Definition math_acos (x : R) : M R :=
  if Rle_dec (-1) x then
    if Rle_dec x 1 then ret (acos x) else raise ValueError
  else raise ValueError.

Definition calculate_solar_phase_angle (xi yi zi xo yo zo : R) : M R :=
  norm_i <- math_sqrt (xi ^ 2 + yi ^ 2 + zi ^ 2) ;;
  norm_o <- math_sqrt (xo ^ 2 + yo ^ 2 + zo ^ 2) ;;
  if Reqb norm_i 0 || Reqb norm_o 0 then ret 0
  else
    let dot_product := (xi * xo + yi * yo + zi * zo) / (norm_i * norm_o) in
    let dot_product := Rmax (-1) (Rmin 1 dot_product) in
    phase_angle_rad <- math_acos dot_product ;;
    ret (degrees phase_angle_rad).

(** A row of a table and a result dictionary: column names with their
    values. [row[k]] raises [KeyError] when the column is missing. *)
Definition row : Type := list (string * R).

Inductive row_exn : Type :=
  | KeyError (k : string)
  | Raised (e : exn).

Fixpoint row_get (r : row) (k : string) : row_exn + R :=
  match r with
  | [] => inl (KeyError k)
  | (k', v) :: r' => if String.eqb k' k then inr v else row_get r' k
  end.

Definition lift {A : Type} (m : M A) : row_exn + A :=
  match m with
  | inl e => inl (Raised e)
  | inr a => inr a
  end.

Definition bind_row {A B : Type} (m : row_exn + A) (k : A -> row_exn + B)
  : row_exn + B :=
  match m with
  | inl e => inl e
  | inr a => k a
  end.

Section ProcessVectors.
Context {P : PolygonSetOps}.

(** The body of the [try] block of [process_vectors] on one row, with the
    calculator [ShadowCalculator()] of the default dimensions. *)
Definition process_row (r : row) : row_exn + row :=
  bind_row (row_get r "i_x"%string) (fun xi =>
  bind_row (row_get r "i_y"%string) (fun yi =>
  bind_row (row_get r "i_z"%string) (fun zi =>
  bind_row (row_get r "o_x"%string) (fun xo =>
  bind_row (row_get r "o_y"%string) (fun yo =>
  bind_row (row_get r "o_z"%string) (fun zo =>
  bind_row (lift (calculate_solar_phase_angle xi yi zi xo yo zo))
    (fun phase_angle =>
  bind_row
    (lift (SolarPhaseAngle.calculate_effective_area CONFIG
             xi yi zi xo yo zo))
    (fun '(A_eff_SA, A_eff_chassis) =>
  inr [("i_x"%string, xi); ("i_y"%string, yi); ("i_z"%string, zi);
       ("o_x"%string, xo); ("o_y"%string, yo); ("o_z"%string, zo);
       ("phase_angle"%string, phase_angle);
       ("A_eff_SA"%string, A_eff_SA);
       ("A_eff_chassis"%string, A_eff_chassis)])))))))).

(** One turn of the loop of [process_vectors]: a row whose body raises is
    reported and skipped, the others append their dictionary to
    [results]. *)
Definition process_step (results : list row) (r : row) : list row :=
  match process_row r with
  | inr d => results ++ [d]
  | inl _ => results
  end.

Definition process_vectors (df : list row) : list row :=
  fold_left process_step df [].

End ProcessVectors.



End PhaseAngle.

(** ** altitudechange: the sampling of angles and the area coefficients *)

Module AltitudeChange.

Inductive angle_exn : Type := ZeroDivisionError | MathDomainError.

(** [math.asin x]: a math domain error ([ValueError]) outside [-1, 1]. *)
Definition asin_checked (x : R) : angle_exn + R :=
  if Rleb (-1) x && Rleb x 1 then inr (asin x) else inl MathDomainError.

(** [a / b] on Python numbers: [ZeroDivisionError] when [b] is 0. *)
Definition div_checked (a b : R) : angle_exn + R :=
  if Reqb b 0 then inl ZeroDivisionError else inr (a / b).

(** import csv.py: [calculate_angles(phi1, phi2, R, h)], with the Earth
    radius [R] written [R_earth]. *)
Definition calculate_angles (phi1 phi2 R_earth h : R)
  : angle_exn + (R * R) :=
  if Rltb phi1 90 then
    match div_checked (sin (radians (phi1 + 90)) * R_earth) (R_earth + h) with
    | inl e => inl e
    | inr sin_phi_ob =>
        match asin_checked sin_phi_ob with
        | inl e => inl e
        | inr a =>
            let phi_ob := degrees a in
            let phi_ob := Rmax (Rmin phi_ob 90) (-90) in
            let phi_sun := phi_ob + phi1 + phi2 in
            inr (phi_ob, phi_sun)
        end
    end
  else
    match div_checked (sin (radians (270 - phi1)) * R_earth) (R_earth + h) with
    | inl e => inl e
    | inr sin_phi_ob =>
        match asin_checked sin_phi_ob with
        | inl e => inl e
        | inr a =>
            let phi_ob := degrees a in
            let phi_ob := Rmax (Rmin phi_ob 90) (-90) in
            let phi_sun := - phi2 - phi1 + phi_ob + 90 in
            inr (phi_ob, phi_sun)
        end
    end.

(** Calculate_Eff_Area.py: the constants and [calculate_effective_area]
    on the three angles of a row, [phi_1 (deg)], [phi_ob (deg)] and
    [phi_sun (deg)]; the result is the pair [SA_coeff], [Chassis_coeff].
    In binary64 the tangent of a positive angle is never 0.0, so the
    quotient [1 / math.tan] does not raise. *)
Definition H : R := 8.1.
Definition L : R := 1.3.

Definition calculate_effective_area (phi1 phi_ob phi_sun : R) : R * R :=
  let sa_coeff :=
    if Rltb phi1 90 then
      let min_angle := Rmin phi_ob phi_sun in
      let sa_coeff :=
        if Rltb 0 min_angle
        then 1 - (L / H) * (1 / tan (radians min_angle))
        else 0 in
      Rmax sa_coeff 0
    else 0 in
  let chassis_coeff := if Rltb phi_sun 0 then 0 else 1 in
  (sa_coeff, chassis_coeff).

End AltitudeChange.

(** ** off-operation: rotations and unit vectors *)

Module OffOperation.
Import ObserverFrame.

(** normal.py: [rotation_matrix(axis, theta)], the Euler-Rodrigues
    formula on the normalised axis. *)
Definition rotation_matrix (axis : vec3) (theta : R) : mat3 :=
  let axis := div axis (sqrt (dot axis axis)) in
  let a := cos (theta / 2) in
  let '(b, c, d) := scale (sin (theta / 2)) (neg axis) in
  let '(aa, bb, cc, dd) := (a * a, b * b, c * c, d * d) in
  let '(bc, ad, ac, ab, bd, cd) :=
    (b * c, a * d, a * c, a * b, b * d, c * d) in
  ((aa + bb - cc - dd, 2 * (bc + ad), 2 * (bd - ac)),
   (2 * (bc - ad), aa + cc - bb - dd, 2 * (cd + ab)),
   (2 * (bd + ac), 2 * (cd - ab), aa + dd - bb - cc)).

(** The matrix of the formula as a function of the four numbers
    [a, b, c, d]. *)
Definition euler_rodrigues (a b c d : R) : mat3 :=
  ((a * a + b * b - c * c - d * d, 2 * (b * c + a * d), 2 * (b * d - a * c)),
   (2 * (b * c - a * d), a * a + c * c - b * b - d * d, 2 * (c * d + a * b)),
   (2 * (b * d + a * c), 2 * (c * d - a * b), a * a + d * d - b * b - c * c)).

(** [rotate_vector(vector, axis, angle_deg)]. *)
Definition rotate_vector (vector axis : vec3) (angle_deg : R) : vec3 :=
  let angle_rad := radians angle_deg in
  let rot_mat := rotation_matrix axis angle_rad in
  matvec rot_mat vector.


End OffOperation.

(** ** Vector_Pairs.py: the directions on the viewing sphere *)

Module VectorPairs.
Import ObserverFrame.

(** The body of the loop of [fibonacci_sphere_sampling] for the index
    [i]; the quotient [i / float(samples - 1)] raises when [samples] is
    1. *)
Definition sphere_point (samples i : nat)
  : AltitudeChange.angle_exn + vec3 :=
  let phi := PI * (3 - sqrt 5) in
  match AltitudeChange.div_checked (INR i) (INR (samples - 1)) with
  | inl e => inl e
  | inr q =>
      let y := 1 - q * 2 in
      let radius := sqrt (1 - y * y) in
      let theta := phi * INR i in
      let x := cos theta * radius in
      let z := sin theta * radius in
      inr (x, y, z)
  end.

Fixpoint collect (ms : list (AltitudeChange.angle_exn + vec3))
  : AltitudeChange.angle_exn + list vec3 :=
  match ms with
  | [] => inr []
  | inl e :: _ => inl e
  | inr p :: ms' =>
      match collect ms' with
      | inl e => inl e
      | inr ps => inr (p :: ps)
      end
  end.

Definition fibonacci_sphere_sampling (samples : nat)
  : AltitudeChange.angle_exn + list vec3 :=
  collect (map (sphere_point samples) (seq 0 samples)).

End VectorPairs.

(** * Properties *)

(** ** Facts on the numeric layer *)

Lemma py_mod_bounds (a m : R) : 0 < m -> 0 <= py_mod a m < m.
Proof.
  intros Hm. unfold py_mod.
  destruct (Zfloor_bound (a / m)) as [Hlo Hhi].
  assert (Ha : a = m * (a / m)) by (field; lra).
  split.
  - apply (Rmult_le_compat_l m) in Hlo; lra.
  - apply (Rmult_lt_compat_l m) in Hhi; lra.
Qed.

Lemma py_mod_small (a m : R) : 0 <= a < m -> py_mod a m = a.
Proof.
  intros [H0 Hm]. unfold py_mod.
  assert (Hpos : 0 < m) by lra.
  assert (Hz : Zfloor (a / m) = 0%Z).
  { apply Zfloor_eq. simpl. split.
    - apply Rmult_le_pos; [lra|]. left. now apply Rinv_0_lt_compat.
    - apply (Rmult_lt_reg_r m); [lra|]. unfold Rdiv.
      rewrite Rmult_assoc, Rinv_l by lra. lra. }
  rewrite Hz. simpl. lra.
Qed.

Lemma radians_degrees (x : R) : radians (degrees x) = x.
Proof. unfold radians, degrees. field. apply PI_neq0. Qed.


Lemma clamp_bounds (lo hi x : R) : lo <= hi -> lo <= clamp lo hi x <= hi.
Proof.
  intros Hle. unfold clamp. split.
  - apply Rmax_l.
  - apply Rmax_lub; [exact Hle | apply Rmin_l].
Qed.

Lemma isclose_within (a b tol : R) :
  Rabs (a - b) <= tol -> isclose a b tol = true.
Proof.
  intros Hab. unfold isclose.
  destruct (Rle_dec _ _) as [_|Hn]; [reflexivity|].
  exfalso. apply Hn.
  eapply Rle_trans; [exact Hab | apply Rmax_r].
Qed.

Lemma Rleb_true (a b : R) : Rleb a b = true <-> a <= b.
Proof. unfold Rleb. destruct (Rle_dec a b); split; intros; try easy. Qed.

Lemma Rltb_true (a b : R) : Rltb a b = true <-> a < b.
Proof. unfold Rltb. destruct (Rlt_dec a b); split; intros; try easy. Qed.

Lemma Reqb_true (a b : R) : Reqb a b = true <-> a = b.
Proof. unfold Reqb. destruct (Req_dec_T a b); split; intros; try easy. Qed.

Lemma quadrant_eqb_eq (a b : quadrant) : quadrant_eqb a b = true <-> a = b.
Proof. destruct a, b; simpl; split; intros; try easy. Qed.

(** Decide every comparison in sight, then let [lra] close the branches
    that contradict the bounds at hand. *)
Ltac cmp_cases :=
  unfold Rleb, Rltb, Reqb in *;
  repeat match goal with
    | |- context [Rle_dec ?a ?b] => destruct (Rle_dec a b)
    | |- context [Rlt_dec ?a ?b] => destruct (Rlt_dec a b)
    | |- context [Req_dec_T ?a ?b] => destruct (Req_dec_T a b)
    end;
  simpl.

(** ** The quadrant classifiers *)

Lemma EA_get_quadrant_cases (phi_deg : R) :
  let phi := py_mod phi_deg 360 in
  (0 <= phi < 90 /\ EffectiveArea.get_quadrant phi_deg = Q1)
  \/ (90 <= phi < 180 /\ EffectiveArea.get_quadrant phi_deg = Q2)
  \/ (180 <= phi <= 270 /\ EffectiveArea.get_quadrant phi_deg = Q3)
  \/ (270 < phi < 360 /\ EffectiveArea.get_quadrant phi_deg = Q4).
Proof.
  intros phi. unfold EffectiveArea.get_quadrant. fold phi.
  assert (Hb : 0 <= phi < 360) by (apply py_mod_bounds; lra).
  cmp_cases; try lra;
    first [ left; split; [lra | reflexivity]
          | right; left; split; [lra | reflexivity]
          | right; right; left; split; [lra | reflexivity]
          | right; right; right; split; [lra | reflexivity] ].
Qed.

Lemma SPA_get_quadrant_cases (phi_deg : R) :
  let phi := py_mod phi_deg 360 in
  (0 <= phi < 90 /\ SolarPhaseAngle.get_quadrant phi_deg = Q1)
  \/ (90 <= phi < 180 /\ SolarPhaseAngle.get_quadrant phi_deg = Q2)
  \/ (180 <= phi < 270 /\ SolarPhaseAngle.get_quadrant phi_deg = Q3)
  \/ (270 <= phi < 360 /\ SolarPhaseAngle.get_quadrant phi_deg = Q4).
Proof.
  intros phi. unfold SolarPhaseAngle.get_quadrant. fold phi.
  assert (Hb : 0 <= phi < 360) by (apply py_mod_bounds; lra).
  cmp_cases; try lra;
    first [ left; split; [lra | reflexivity]
          | right; left; split; [lra | reflexivity]
          | right; right; left; split; [lra | reflexivity]
          | right; right; right; split; [lra | reflexivity] ].
Qed.

Lemma EA_get_quadrant_270 : EffectiveArea.get_quadrant 270 = Q3.
Proof.
  unfold EffectiveArea.get_quadrant.
  rewrite (py_mod_small 270 360) by lra.
  cmp_cases; try lra; reflexivity.
Qed.

Lemma SPA_get_quadrant_270 : SolarPhaseAngle.get_quadrant 270 = Q4.
Proof.
  unfold SolarPhaseAngle.get_quadrant.
  rewrite (py_mod_small 270 360) by lra.
  cmp_cases; try lra; reflexivity.
Qed.


(** ** The case table *)

Section CaseTable.
Context {P : PolygonSetOps}.
Variable self : ShadowCalculator.

Lemma EA_effective_area_table (phi_i theta_i phi_o theta_o : R) :
  EffectiveArea.calculate_effective_area self phi_i theta_i phi_o theta_o
  = Spec.case_table (A_SA self) (A_chassis self)
      (EffectiveArea.calculate_special_case self phi_i theta_i phi_o theta_o)
      (EffectiveArea.get_quadrant phi_i) (EffectiveArea.get_quadrant phi_o).
Proof.
  unfold EffectiveArea.calculate_effective_area, Spec.case_table.
  destruct (EffectiveArea.get_quadrant phi_i),
           (EffectiveArea.get_quadrant phi_o); reflexivity.
Qed.

Lemma SPA_effective_area_table (xi yi zi xo yo zo : R) :
  SolarPhaseAngle.calculate_effective_area self xi yi zi xo yo zo
  = ('(phi_i, theta_i) <- SolarPhaseAngle.cartesian_to_spherical xi yi zi ;;
     '(phi_o, theta_o) <- SolarPhaseAngle.cartesian_to_spherical xo yo zo ;;
     Spec.case_table (A_SA self) (A_chassis self)
       (SolarPhaseAngle.calculate_special_case self
          phi_i theta_i phi_o theta_o)
       (SolarPhaseAngle.get_quadrant phi_i)
       (SolarPhaseAngle.get_quadrant phi_o)).
Proof.
  unfold SolarPhaseAngle.calculate_effective_area, Spec.case_table.
  destruct (SolarPhaseAngle.cartesian_to_spherical xi yi zi)
    as [e|[phi_i theta_i]]; [reflexivity|].
  destruct (SolarPhaseAngle.cartesian_to_spherical xo yo zo)
    as [e|[phi_o theta_o]]; [reflexivity|].
  simpl.
  destruct (SolarPhaseAngle.get_quadrant phi_i),
           (SolarPhaseAngle.get_quadrant phi_o); reflexivity.
Qed.

Lemma case_table_default (a c : R) (special_case : M R)
  (quad_i quad_o : quadrant) :
  Spec.is_special quad_i quad_o = false ->
  exists r, Spec.case_table a c special_case quad_i quad_o = ret r
            /\ forall special_case',
                 Spec.case_table a c special_case' quad_i quad_o = ret r.
Proof.
  destruct quad_i, quad_o; simpl; intros Hs; try discriminate;
    eexists; split; reflexivity.
Qed.

(** C1. For every input the angle-input [calculate_effective_area] returns
    the entry of the case table at the quadrants of [phi_i] and [phi_o]; the
    Cartesian-input calculator returns the entry at the quadrants of the
    converted angles; and the eight pairs that the table does not list,
    (Q1,Q1), (Q1,Q2), (Q2,Q1), (Q2,Q2), (Q3,Q1), (Q3,Q2), (Q4,Q1), (Q4,Q2),
    give exactly (0, 0). *)
Theorem calculate_effective_area_case_table
  (phi_i theta_i phi_o theta_o : R) (xi yi zi xo yo zo : R) :
  EffectiveArea.calculate_effective_area self phi_i theta_i phi_o theta_o
  = match EffectiveArea.get_quadrant phi_i,
          EffectiveArea.get_quadrant phi_o with
    | Q1, Q3 => ret (0, 0)
    | Q1, Q4 =>
        special_case <-
          EffectiveArea.calculate_special_case self
            phi_i theta_i phi_o theta_o ;;
        ret (special_case, 0)
    | Q2, Q3 => ret (A_SA self, 0)
    | Q2, Q4 => ret (0, 0)
    | Q3, Q3 => ret (A_SA self, A_chassis self)
    | Q3, Q4 => ret (0, A_chassis self)
    | Q4, Q3 => ret (0, A_chassis self)
    | Q4, Q4 =>
        special_case <-
          EffectiveArea.calculate_special_case self
            phi_i theta_i phi_o theta_o ;;
        ret (special_case, A_chassis self)
    | Q1, Q1 | Q1, Q2 | Q2, Q1 | Q2, Q2
    | Q3, Q1 | Q3, Q2 | Q4, Q1 | Q4, Q2 => ret (0, 0)
    end
  /\ EffectiveArea.calculate_effective_area self phi_i theta_i phi_o theta_o
     = Spec.case_table (A_SA self) (A_chassis self)
         (EffectiveArea.calculate_special_case self
            phi_i theta_i phi_o theta_o)
         (EffectiveArea.get_quadrant phi_i) (EffectiveArea.get_quadrant phi_o)
  /\ SolarPhaseAngle.calculate_effective_area self xi yi zi xo yo zo
     = ('(phi_i, theta_i) <-
          SolarPhaseAngle.cartesian_to_spherical xi yi zi ;;
        '(phi_o, theta_o) <-
          SolarPhaseAngle.cartesian_to_spherical xo yo zo ;;
        Spec.case_table (A_SA self) (A_chassis self)
          (SolarPhaseAngle.calculate_special_case self
             phi_i theta_i phi_o theta_o)
          (SolarPhaseAngle.get_quadrant phi_i)
          (SolarPhaseAngle.get_quadrant phi_o)).
Proof.
  split; [|split].
  - rewrite EA_effective_area_table. unfold Spec.case_table.
    destruct (EffectiveArea.get_quadrant phi_i),
             (EffectiveArea.get_quadrant phi_o); reflexivity.
  - apply EA_effective_area_table.
  - apply SPA_effective_area_table.
Qed.

(** C4. When the quadrants of [phi_i] and [phi_o] are (Q1,Q4) or (Q4,Q4),
    [calculate_special_case] calls [calculate_combined_non_shadow] on
    [phi_i_adj], [theta_i], [phi_o_adj], [theta_o], where [phi_i_adj] is 0
    for Q1 and [phi_i - 270] for Q4, [phi_o_adj] is [phi_o - 270], the two
    [theta] are passed unchanged, and returns the non-shadow area of that
    call. Both calculators. *)
Theorem calculate_special_case_remap (phi_i theta_i phi_o theta_o : R) :
  (Spec.is_special (EffectiveArea.get_quadrant phi_i)
                   (EffectiveArea.get_quadrant phi_o) = true ->
   exists phi_i_adj phi_o_adj : R,
     (EffectiveArea.get_quadrant phi_i = Q1 -> phi_i_adj = 0)
     /\ (EffectiveArea.get_quadrant phi_i = Q4 -> phi_i_adj = phi_i - 270)
     /\ phi_o_adj = phi_o - 270
     /\ EffectiveArea.calculate_special_case self phi_i theta_i phi_o theta_o
        = ('(non_shadow_area, _) <-
             EffectiveArea.calculate_combined_non_shadow self
               phi_i_adj theta_i phi_o_adj theta_o ;;
           ret non_shadow_area))
  /\ (Spec.is_special (SolarPhaseAngle.get_quadrant phi_i)
                      (SolarPhaseAngle.get_quadrant phi_o) = true ->
      exists phi_i_adj phi_o_adj : R,
        (SolarPhaseAngle.get_quadrant phi_i = Q1 -> phi_i_adj = 0)
        /\ (SolarPhaseAngle.get_quadrant phi_i = Q4 ->
            phi_i_adj = phi_i - 270)
        /\ phi_o_adj = phi_o - 270
        /\ SolarPhaseAngle.calculate_special_case self
             phi_i theta_i phi_o theta_o
           = ('(non_shadow_area, _) <-
                SolarPhaseAngle.calculate_combined_non_shadow self
                  phi_i_adj theta_i phi_o_adj theta_o ;;
              ret non_shadow_area)).
Proof.
  split; intros Hs.
  - unfold EffectiveArea.calculate_special_case.
    destruct (EffectiveArea.get_quadrant phi_i) eqn:Ei;
      destruct (EffectiveArea.get_quadrant phi_o) eqn:Eo;
      simpl in Hs; try discriminate.
    + exists 0, (phi_o - 270). repeat split; try reflexivity.
      intros Hq; discriminate.
    + exists (phi_i - 270), (phi_o - 270). repeat split; try reflexivity.
      intros Hq; discriminate.
  - unfold SolarPhaseAngle.calculate_special_case.
    destruct (SolarPhaseAngle.get_quadrant phi_i) eqn:Ei;
      destruct (SolarPhaseAngle.get_quadrant phi_o) eqn:Eo;
      simpl in Hs; try discriminate.
    + exists 0, (phi_o - 270). repeat split; try reflexivity.
      intros Hq; discriminate.
    + exists (phi_i - 270), (phi_o - 270). repeat split; try reflexivity.
      intros Hq; discriminate.
Qed.

(** C10. Two inputs whose quadrant pairs are equal and are neither (Q1,Q4)
    nor (Q4,Q4) get identical outputs from [calculate_effective_area]: the
    [theta] arguments and the position of each [phi] inside its quadrant
    play no part. For the Cartesian-input calculator the angles are the
    converted ones. *)
Theorem calculate_effective_area_quadrant_only
  (phi_i theta_i phi_o theta_o phi_i' theta_i' phi_o' theta_o' : R) :
  (EffectiveArea.get_quadrant phi_i = EffectiveArea.get_quadrant phi_i' ->
   EffectiveArea.get_quadrant phi_o = EffectiveArea.get_quadrant phi_o' ->
   Spec.is_special (EffectiveArea.get_quadrant phi_i)
                   (EffectiveArea.get_quadrant phi_o) = false ->
   EffectiveArea.calculate_effective_area self phi_i theta_i phi_o theta_o
   = EffectiveArea.calculate_effective_area self
       phi_i' theta_i' phi_o' theta_o')
  /\ (forall xi yi zi xo yo zo xi' yi' zi' xo' yo' zo' : R,
      SolarPhaseAngle.cartesian_to_spherical xi yi zi
        = ret (phi_i, theta_i) ->
      SolarPhaseAngle.cartesian_to_spherical xo yo zo
        = ret (phi_o, theta_o) ->
      SolarPhaseAngle.cartesian_to_spherical xi' yi' zi'
        = ret (phi_i', theta_i') ->
      SolarPhaseAngle.cartesian_to_spherical xo' yo' zo'
        = ret (phi_o', theta_o') ->
      SolarPhaseAngle.get_quadrant phi_i
        = SolarPhaseAngle.get_quadrant phi_i' ->
      SolarPhaseAngle.get_quadrant phi_o
        = SolarPhaseAngle.get_quadrant phi_o' ->
      Spec.is_special (SolarPhaseAngle.get_quadrant phi_i)
                      (SolarPhaseAngle.get_quadrant phi_o) = false ->
      SolarPhaseAngle.calculate_effective_area self xi yi zi xo yo zo
      = SolarPhaseAngle.calculate_effective_area self xi' yi' zi' xo' yo' zo').
Proof.
  split.
  - intros Hi Ho Hs. rewrite !EA_effective_area_table, <- Hi, <- Ho.
    destruct (case_table_default (A_SA self) (A_chassis self)
                (EffectiveArea.calculate_special_case self
                   phi_i theta_i phi_o theta_o)
                _ _ Hs) as [r [Hr Hall]].
    now rewrite Hr, Hall.
  - intros xi yi zi xo yo zo xi' yi' zi' xo' yo' zo' Ci Co Ci' Co' Hi Ho Hs.
    rewrite !SPA_effective_area_table, Ci, Co, Ci', Co'. simpl.
    rewrite <- Hi, <- Ho.
    destruct (case_table_default (A_SA self) (A_chassis self)
                (SolarPhaseAngle.calculate_special_case self
                   phi_i theta_i phi_o theta_o)
                _ _ Hs) as [r [Hr Hall]].
    now rewrite Hr, Hall.
Qed.

End CaseTable.

(** ** The strip model satisfies the laws *)

Lemma strip_of_rectangle (w h : R) :
  0 <= w -> 0 <= h -> StripModel.strip_of_ring (rectangle w h) = w * h.
Proof.
  intros Hw Hh.
  unfold StripModel.strip_of_ring, rectangle, fin_pt. simpl.
  unfold StripModel.ring_area. simpl.
  replace (0 * 0 - w * 0 + (w * h - w * 0 + (w * h - 0 * h + (0 * 0 - 0 * h))))
    with (2 * (w * h)) by ring.
  rewrite Rabs_pos_eq.
  - field.
  - assert (0 <= w * h) by now apply Rmult_le_pos. lra.
Qed.

Lemma Rmin_scale (w h h' : R) :
  0 <= w -> Rmin (w * h) (w * h') = w * Rmin h h'.
Proof.
  intros Hw. unfold Rmin.
  destruct (Rle_dec h h') as [Hle|Hgt];
    destruct (Rle_dec (w * h) (w * h')) as [Hle'|Hgt']; try reflexivity.
  - exfalso. apply Hgt'. now apply Rmult_le_compat_l.
  - apply Rle_antisym; [exact Hle'|].
    apply Rmult_le_compat_l; [exact Hw | lra].
Qed.

#[local] Instance StripModel_laws : PolygonSetOpsLaws StripModel.ops.
Proof.
  constructor; simpl.
  - reflexivity.
  - intros a b. rewrite (Rmin_comm b a). lra.
  - exact strip_of_rectangle.
  - intros w h h' Hw Hh Hh'.
    rewrite !strip_of_rectangle by lra.
    rewrite Rmin_scale by lra.
    assert (Hpos : 0 < w * Rmin h h').
    { apply Rmult_lt_0_compat; [exact Hw|].
      unfold Rmin. destruct (Rle_dec h h'); assumption. }
    repeat split.
    + unfold Reqb. destruct (Req_dec_T _ _) as [E|_]; [lra | reflexivity].
    + discriminate.
Qed.

(** ** Shadows *)

Section Shadow.
Context {P : PolygonSetOps} {PL : PolygonSetOpsLaws P}.
Variable self : ShadowCalculator.
Hypothesis D_pos : 0 < D self.
Hypothesis H_pos : 0 < H self.

(** The two calculators share the vertical branch and the intersection
    with the panel. *)
Lemma vertical_is_close (phi_deg : R) :
  Rabs (py_mod phi_deg 180 - 90) <= 1e-9 ->
  isclose (py_mod phi_deg 180) 90 1e-9 = true.
Proof. apply isclose_within. Qed.

Lemma vertical_intersection :
  0 < L self ->
  exists vertices : list pt,
    (let g := intersection (Polygon (rectangle (D self) (L self)))
                           (Polygon (rectangle (D self) (H self))) in
     if is_empty g then ret ([], 0)
     else match exterior_coords g with
          | None => raise AttributeError
          | Some vs => ret (vs, area g)
          end)
    = ret (vertices, D self * Rmin (L self) (H self)).
Proof.
  intros L_pos.
  destruct (rectangle_intersection (D self) (L self) (H self)
              D_pos L_pos H_pos) as [Hne [Hext Harea]].
  cbv zeta. rewrite Hne.
  destruct (exterior_coords _) as [vs|]; [|contradiction].
  exists vs. now rewrite Harea.
Qed.

(** C5. For every [theta] and every [phi] with [phi mod 180] within 1e-9
    of 90, [calculate_shadow] takes the rectangle [0,D]x[0,L] as shadow
    polygon, and the area it returns after the intersection with the panel
    [0,D]x[0,H] is [D * min(L, H)]; so it is at [phi = 90]. Both
    calculators; the dimensions are positive. *)
Theorem calculate_shadow_vertical (phi_deg theta_deg : R) :
  0 < L self ->
  Rabs (py_mod phi_deg 180 - 90) <= 1e-9 ->
  (EffectiveArea.shadow_poly self phi_deg theta_deg
   = Polygon (rectangle (D self) (L self))
   /\ exists vertices,
        EffectiveArea.calculate_shadow self phi_deg theta_deg
        = ret (vertices, D self * Rmin (L self) (H self)))
  /\ (SolarPhaseAngle.shadow_poly self phi_deg theta_deg
      = Polygon (rectangle (D self) (L self))
      /\ exists vertices,
           SolarPhaseAngle.calculate_shadow self phi_deg theta_deg
           = ret (vertices, D self * Rmin (L self) (H self)))
  /\ (exists vertices,
        EffectiveArea.calculate_shadow self 90 theta_deg
        = ret (vertices, D self * Rmin (L self) (H self)))
  /\ (exists vertices,
        SolarPhaseAngle.calculate_shadow self 90 theta_deg
        = ret (vertices, D self * Rmin (L self) (H self))).
Proof.
  intros L_pos Hclose.
  pose proof (vertical_is_close phi_deg Hclose) as Hv.
  assert (H90 : isclose (py_mod 90 180) 90 1e-9 = true).
  { apply isclose_within. rewrite py_mod_small by lra.
    replace (90 - 90) with 0 by ring. rewrite Rabs_R0. lra. }
  destruct (vertical_intersection L_pos) as [vs Hvs].
  repeat split.
  - unfold EffectiveArea.shadow_poly. now rewrite Hv.
  - exists vs. unfold EffectiveArea.calculate_shadow,
      EffectiveArea.shadow_poly. rewrite Hv. exact Hvs.
  - unfold SolarPhaseAngle.shadow_poly. now rewrite Hv.
  - exists vs. unfold SolarPhaseAngle.calculate_shadow,
      SolarPhaseAngle.shadow_poly. rewrite Hv. exact Hvs.
  - exists vs. unfold EffectiveArea.calculate_shadow,
      EffectiveArea.shadow_poly. rewrite H90. exact Hvs.
  - exists vs. unfold SolarPhaseAngle.calculate_shadow,
      SolarPhaseAngle.shadow_poly. rewrite H90. exact Hvs.
Qed.

Lemma non_shadow_plus_shadow (combined : geometry) :
  let rect := Polygon (rectangle (D self) (H self)) in
  (if hasattr_area (difference rect combined)
   then area (difference rect combined) else D self * H self)
  + area (intersection combined rect) = D self * H self.
Proof.
  intros rect. rewrite hasattr_area_all, area_difference.
  apply area_rectangle; lra.
Qed.

(** C7. For the shadow polygons [v_i] and [v_o] that [calculate_shadow]
    produces for the two sources, [calculate_combined_non_shadow] returns a
    non-shadow area that, added to the area of the intersection of
    [union(v_i, v_o)] with the panel [0,D]x[0,H], gives [D * H]. Both
    calculators; the dimensions are positive. *)
Theorem combined_non_shadow_invariant
  (phi_i theta_i phi_o theta_o : R) (v_i v_o : list pt) (a_i a_o : R) :
  let rect := Polygon (rectangle (D self) (H self)) in
  let union := unary_union [Polygon v_i; Polygon v_o] in
  (EffectiveArea.calculate_shadow self phi_i theta_i = ret (v_i, a_i) ->
   EffectiveArea.calculate_shadow self phi_o theta_o = ret (v_o, a_o) ->
   exists non_shadow_area,
     EffectiveArea.calculate_combined_non_shadow self
       phi_i theta_i phi_o theta_o = ret (non_shadow_area, union)
     /\ non_shadow_area + area (intersection union rect) = D self * H self)
  /\ (SolarPhaseAngle.calculate_shadow self phi_i theta_i = ret (v_i, a_i) ->
      SolarPhaseAngle.calculate_shadow self phi_o theta_o = ret (v_o, a_o) ->
      exists non_shadow_area,
        SolarPhaseAngle.calculate_combined_non_shadow self
          phi_i theta_i phi_o theta_o = ret (non_shadow_area, union)
        /\ non_shadow_area + area (intersection union rect)
           = D self * H self).
Proof.
  intros rect union. split; intros Hi Ho.
  - unfold EffectiveArea.calculate_combined_non_shadow.
    rewrite Hi, Ho. simpl. eexists. split; [reflexivity|].
    apply non_shadow_plus_shadow.
  - unfold SolarPhaseAngle.calculate_combined_non_shadow.
    rewrite Hi, Ho. simpl. eexists. split; [reflexivity|].
    apply non_shadow_plus_shadow.
Qed.

End Shadow.

(** ** The cotangent and the offsets of the general case *)

Lemma radians_45 : radians 45 = PI / 4.
Proof. unfold radians. lra. Qed.

Lemma tan_radians_45 : tan (radians 45) = 1.
Proof. rewrite radians_45. exact tan_PI4. Qed.




Lemma isclose_far (a b tol : R) :
  0 <= tol < 1 -> 0 <= a <= 1000 -> 0 <= b <= 1000 -> 1 <= Rabs (a - b) ->
  isclose a b tol = false.
Proof.
  intros Ht Ha Hb Hd. unfold isclose.
  destruct (Rle_dec _ _) as [Hle|_]; [|reflexivity].
  exfalso. revert Hle. unfold rel_tol.
  rewrite (Rabs_pos_eq a), (Rabs_pos_eq b) by lra.
  unfold Rmax. repeat destruct (Rle_dec _ _); lra.
Qed.





Section Offsets.
Context {P : PolygonSetOps}.
Variable self : ShadowCalculator.


End Offsets.

(** ** The conversion of a direction to angles *)

Lemma sum_squares_nonneg (x y z : R) : 0 <= x ^ 2 + y ^ 2 + z ^ 2.
Proof. nra. Qed.

Lemma math_sqrt_sum_squares (x y z : R) :
  math_sqrt (x ^ 2 + y ^ 2 + z ^ 2) = ret (sqrt (x ^ 2 + y ^ 2 + z ^ 2)).
Proof.
  unfold math_sqrt. destruct (Rle_dec _ _) as [_|Hn]; [reflexivity|].
  exfalso. apply Hn, sum_squares_nonneg.
Qed.

Lemma math_asin_in_range (x : R) : -1 <= x <= 1 -> math_asin x = ret (asin x).
Proof.
  intros [Hlo Hhi]. unfold math_asin.
  destruct (Rle_dec (-1) x); [|contradiction].
  destruct (Rle_dec x 1); [reflexivity | contradiction].
Qed.

Lemma normalized_component_range (x y z : R) :
  let norm := sqrt (x ^ 2 + y ^ 2 + z ^ 2) in
  norm <> 0 -> -1 <= z / norm <= 1.
Proof.
  intros norm Hn.
  assert (H0 : 0 <= norm) by apply sqrt_pos.
  assert (Hpos : 0 < norm) by lra.
  assert (Hsq : norm * norm = x ^ 2 + y ^ 2 + z ^ 2)
    by (apply sqrt_sqrt, sum_squares_nonneg).
  assert (Hz : - norm <= z <= norm) by (split; nra).
  split.
  - apply (Rmult_le_reg_r norm); [exact Hpos|].
    unfold Rdiv. rewrite Rmult_assoc, Rinv_l by lra. lra.
  - apply (Rmult_le_reg_r norm); [exact Hpos|].
    unfold Rdiv. rewrite Rmult_assoc, Rinv_l by lra. lra.
Qed.

Lemma sin_theta_clamped (s : R) : -1 <= Rmax (-1) (Rmin 1 s) <= 1.
Proof. apply (clamp_bounds (-1) 1). lra. Qed.

Lemma bind_ret {A B : Type} (a : A) (k : A -> M B) : bind (ret a) k = k a.
Proof. reflexivity. Qed.

Lemma overflow_threshold_above : 1e300 < overflow_threshold.
Proof.
  unfold overflow_threshold.
  let v := eval vm_compute in (2 ^ 1024 - 2 ^ 970)%Z in
  change (2 ^ 1024 - 2 ^ 970)%Z with v.
  lra.
Qed.



(** A square below 1e300 does not overflow. *)
Lemma float_pow_square_bounded (c : R) :
  -1e150 <= c <= 1e150 -> float_pow c 2 = ret (c ^ 2).
Proof.
  intros Hc. unfold float_pow, Rleb.
  destruct (Rle_dec _ _) as [Hle|_]; [|reflexivity].
  exfalso. pose proof overflow_threshold_above as Ht.
  rewrite Rabs_pos_eq in Hle by nra. nra.
Qed.


Lemma in_normal_range_bounds (c : R) :
  in_normal_range c -> -1e150 <= c <= 1e150.
Proof.
  intros [-> | [_ Hc]]; [lra|].
  revert Hc. unfold Rabs. destruct (Rcase_abs c); lra.
Qed.

Lemma in_normal_range_0 : in_normal_range 0.
Proof. now left. Qed.

Lemma in_normal_range_between (c : R) :
  1e-150 <= c <= 1e150 \/ -1e150 <= c <= -1e-150 -> in_normal_range c.
Proof.
  intros Hc. right. unfold Rabs. destruct (Rcase_abs c); lra.
Qed.

(** Without an overflow, the conversion goes on from the length of the
    vector. *)
Ltac squares_computed Hx Hy Hz :=
  unfold SolarPhaseAngle.cartesian_to_spherical;
  rewrite Hx, bind_ret, Hy, bind_ret, Hz, bind_ret;
  rewrite math_sqrt_sum_squares, bind_ret.


(** The angles that the conversion returns for a vector of length [n]
    that is not zero, written with the normalised components. *)
Lemma cartesian_to_spherical_nonzero (x y z : R) :
  let n := sqrt (x ^ 2 + y ^ 2 + z ^ 2) in
  float_pow x 2 = ret (x ^ 2) -> float_pow y 2 = ret (y ^ 2) ->
  float_pow z 2 = ret (z ^ 2) ->
  n <> 0 ->
  SolarPhaseAngle.cartesian_to_spherical x y z
  = ret (py_mod
           (if Rltb 0 (x / n)
            then py_mod (degrees (asin (z / n))) 360
            else 180 - degrees (asin (z / n))) 360,
         if isclose
              (Rabs (if Rltb 0 (x / n)
                     then py_mod (degrees (asin (z / n))) 360
                     else 180 - degrees (asin (z / n)))) 90 1e-9
         then 0
         else degrees
                (asin (Rmax (-1)
                         (Rmin 1 (y / n / cos (asin (z / n))))))).
Proof.
  intros n Hx Hy Hz Hn. squares_computed Hx Hy Hz. fold n.
  unfold Reqb. destruct (Req_dec_T n 0) as [E|_]; [contradiction|].
  cbv beta iota zeta.
  rewrite math_asin_in_range by now apply normalized_component_range.
  rewrite bind_ret.
  destruct (isclose _ 90 1e-9).
  - now rewrite bind_ret.
  - rewrite math_asin_in_range by apply sin_theta_clamped.
    now rewrite !bind_ret.
Qed.







(** ** The two calculators at [phi = 270] *)

Lemma asin_neg_1 : asin (-1) = - (PI / 2).
Proof.
  replace (-1) with (- (1)) by lra. rewrite asin_opp, asin_1. reflexivity.
Qed.

Lemma degrees_neg_half_pi : degrees (- (PI / 2)) = -90.
Proof. unfold degrees. field. apply PI_neq0. Qed.

Lemma degrees_0 : degrees 0 = 0.
Proof. unfold degrees. lra. Qed.

Lemma Rltb_irrefl_0 : Rltb 0 0 = false.
Proof. unfold Rltb. destruct (Rlt_dec 0 0); [lra | reflexivity]. Qed.

Lemma Rltb_0_neg_1 : Rltb 0 (-1) = false.
Proof. unfold Rltb. destruct (Rlt_dec 0 (-1)); [lra | reflexivity]. Qed.

Lemma clamp_unit_0 : Rmax (-1) (Rmin 1 0) = 0.
Proof. rewrite Rmin_right by lra. apply Rmax_right. lra. Qed.

Lemma Reqb_false (a b : R) : a <> b -> Reqb a b = false.
Proof.
  intros Hn. unfold Reqb. destruct (Req_dec_T a b); [contradiction|].
  reflexivity.
Qed.

Lemma Rltb_false (a b : R) : b <= a -> Rltb a b = false.
Proof.
  intros Hn. unfold Rltb. destruct (Rlt_dec a b); [lra | reflexivity].
Qed.

(** A direction along the negative z axis is converted to [phi = 270],
    [theta = 0]. *)
Lemma cartesian_to_spherical_south (z : R) :
  -1e150 <= z < 0 ->
  SolarPhaseAngle.cartesian_to_spherical 0 0 z = ret (270, 0).
Proof.
  intros Hz.
  unfold SolarPhaseAngle.cartesian_to_spherical.
  rewrite !float_pow_square_bounded by lra.
  rewrite !bind_ret, math_sqrt_sum_squares, bind_ret.
  replace (0 ^ 2 + 0 ^ 2 + z ^ 2) with ((- z) * (- z)) by ring.
  rewrite sqrt_square by lra.
  rewrite Reqb_false by lra. cbv beta iota zeta.
  replace (z / - z) with (-1) by (field; lra).
  replace (0 / - z) with 0 by (field; lra).
  rewrite math_asin_in_range by lra. rewrite bind_ret.
  rewrite asin_neg_1, degrees_neg_half_pi, Rltb_irrefl_0.
  replace (180 - -90) with 270 by ring.
  rewrite (isclose_far (Rabs 270) 90 1e-9).
  - replace (0 / cos (- (PI / 2))) with 0 by (unfold Rdiv; ring).
    rewrite clamp_unit_0, math_asin_in_range by lra.
    rewrite !bind_ret, asin_0, degrees_0, py_mod_small by lra.
    reflexivity.
  - lra.
  - rewrite Rabs_pos_eq; lra.
  - lra.
  - rewrite (Rabs_pos_eq 270) by lra.
    replace (270 - 90) with 180 by ring. rewrite Rabs_pos_eq; lra.
Qed.

(** A direction along the negative x axis is converted to [phi = 180],
    [theta = 0]. *)
Lemma cartesian_to_spherical_west (x : R) :
  -1e150 <= x < 0 ->
  SolarPhaseAngle.cartesian_to_spherical x 0 0 = ret (180, 0).
Proof.
  intros Hx.
  unfold SolarPhaseAngle.cartesian_to_spherical.
  rewrite !float_pow_square_bounded by lra.
  rewrite !bind_ret, math_sqrt_sum_squares, bind_ret.
  replace (x ^ 2 + 0 ^ 2 + 0 ^ 2) with ((- x) * (- x)) by ring.
  rewrite sqrt_square by lra.
  rewrite Reqb_false by lra. cbv beta iota zeta.
  replace (x / - x) with (-1) by (field; lra).
  replace (0 / - x) with 0 by (field; lra).
  rewrite math_asin_in_range by lra. rewrite bind_ret.
  rewrite asin_0, degrees_0, Rltb_0_neg_1.
  replace (180 - 0) with 180 by ring.
  rewrite (isclose_far (Rabs 180) 90 1e-9).
  - rewrite cos_0. replace (0 / 1) with 0 by field.
    rewrite clamp_unit_0, math_asin_in_range by lra.
    rewrite !bind_ret, asin_0, degrees_0, py_mod_small by lra.
    reflexivity.
  - lra.
  - rewrite Rabs_pos_eq; lra.
  - lra.
  - rewrite (Rabs_pos_eq 180) by lra.
    replace (180 - 90) with 90 by ring. rewrite Rabs_pos_eq; lra.
Qed.

Lemma EA_get_quadrant_180 : EffectiveArea.get_quadrant 180 = Q3.
Proof.
  unfold EffectiveArea.get_quadrant.
  rewrite (py_mod_small 180 360) by lra.
  cmp_cases; try lra; reflexivity.
Qed.

Lemma SPA_get_quadrant_180 : SolarPhaseAngle.get_quadrant 180 = Q3.
Proof.
  unfold SolarPhaseAngle.get_quadrant.
  rewrite (py_mod_small 180 360) by lra.
  cmp_cases; try lra; reflexivity.
Qed.

Section Variants.
Context {P : PolygonSetOps}.

(** C3, at the directions (0, 0, -1) and (-1, 0, 0): they are converted to
    the angles (270, 0) and (180, 0); the Cartesian-input calculator puts
    270 in Q4 and returns [(0, A_chassis)], the angle-input calculator puts
    270 in Q3 and returns [(A_SA, A_chassis)] on the converted angles. With
    the default dimensions the two results differ. *)
Theorem variants_differ_at_270 :
  SolarPhaseAngle.cartesian_to_spherical 0 0 (-1) = ret (270, 0)
  /\ SolarPhaseAngle.cartesian_to_spherical (-1) 0 0 = ret (180, 0)
  /\ SolarPhaseAngle.calculate_effective_area CONFIG 0 0 (-1) (-1) 0 0
     = ret (0, A_chassis CONFIG)
  /\ EffectiveArea.calculate_effective_area CONFIG 270 0 180 0
     = ret (A_SA CONFIG, A_chassis CONFIG)
  /\ SolarPhaseAngle.calculate_effective_area CONFIG 0 0 (-1) (-1) 0 0
     <> EffectiveArea.calculate_effective_area CONFIG 270 0 180 0.
Proof.
  assert (HS : SolarPhaseAngle.calculate_effective_area CONFIG
                 0 0 (-1) (-1) 0 0 = ret (0, A_chassis CONFIG)).
  { rewrite SPA_effective_area_table.
    rewrite cartesian_to_spherical_south, cartesian_to_spherical_west by lra.
    rewrite !bind_ret. cbv beta iota zeta.
    now rewrite SPA_get_quadrant_270, SPA_get_quadrant_180. }
  assert (HE : EffectiveArea.calculate_effective_area CONFIG 270 0 180 0
               = ret (A_SA CONFIG, A_chassis CONFIG)).
  { rewrite EA_effective_area_table.
    now rewrite EA_get_quadrant_270, EA_get_quadrant_180. }
  repeat split.
  - apply cartesian_to_spherical_south. lra.
  - apply cartesian_to_spherical_west. lra.
  - exact HS.
  - exact HE.
  - rewrite HS, HE. unfold ret, A_SA, A_chassis. simpl.
    intros Heq. injection Heq as Heq. lra.
Qed.

End Variants.

(** ** The observer frame *)

Module ObserverFrameFacts.
Import ObserverFrame.

Lemma vec3_eq (a b c x y z : R) :
  a = x -> b = y -> c = z -> (a, b, c) = (x, y, z).
Proof. intros -> -> ->. reflexivity. Qed.

Ltac vec_eq := apply vec3_eq; simpl; try field; try lra.

Lemma norm_unit (a b c : R) : a * a + b * b + c * c = 1 -> norm (a, b, c) = 1.
Proof. intros E. unfold norm. rewrite E. exact sqrt_1. Qed.

Lemma div_by_1 (v : vec3) : div v 1 = v.
Proof. destruct v as [[a b] c]. unfold div. vec_eq. Qed.

(** The matrix with the columns [x_s], [y_s], [z_s] applied to [v] is the
    combination of the columns with the components of [v]. *)
Lemma matvec_columns (x_s y_s z_s v : vec3) :
  matvec (transpose (vstack x_s y_s z_s)) v
  = (let '(a, b, c) := v in
     let '(x1, x2, x3) := x_s in
     let '(y1, y2, y3) := y_s in
     let '(z1, z2, z3) := z_s in
     (x1 * a + y1 * b + z1 * c,
      x2 * a + y2 * b + z2 * c,
      x3 * a + y3 * b + z3 * c)).
Proof.
  destruct x_s as [[x1 x2] x3], y_s as [[y1 y2] y3], z_s as [[z1 z2] z3],
           v as [[a b] c].
  reflexivity.
Qed.

(** Through the transpose the components are the dot products with the
    frame vectors. *)
Lemma matvec_rows (x_s y_s z_s v : vec3) :
  matvec (transpose (transpose (vstack x_s y_s z_s))) v
  = (dot x_s v, dot y_s v, dot z_s v).
Proof.
  destruct x_s as [[x1 x2] x3], y_s as [[y1 y2] y3], z_s as [[z1 z2] z3].
  reflexivity.
Qed.

Lemma frame_z_s (i_xyz o_xyz : vec3) :
  snd (frame i_xyz o_xyz) = neg (div o_xyz (norm o_xyz)).
Proof. reflexivity. Qed.

(** The frame of the sun direction (0,1,0) and the satellite direction
    (-1,0,0). *)
Lemma frame_example :
  frame (0, 1, 0) (-1, 0, 0) = ((0, 1, 0), (0, 0, 1), (1, 0, 0)).
Proof.
  unfold frame.
  rewrite (norm_unit 0 1 0), (norm_unit (-1) 0 0) by lra.
  rewrite !div_by_1.
  replace (neg (-1, 0, 0)) with (1, 0, 0) by (unfold neg; vec_eq).
  replace (cross (1, 0, 0) (0, 1, 0)) with (0, 0, 1)
    by (unfold cross; vec_eq).
  rewrite (norm_unit 0 0 1) by lra. cbv zeta.
  replace (Rltb 1 1e-10) with false
    by (unfold Rltb; destruct (Rlt_dec 1 1e-10); [lra | reflexivity]).
  rewrite div_by_1.
  replace (cross (0, 0, 1) (1, 0, 0)) with (0, 1, 0)
    by (unfold cross; vec_eq).
  rewrite (norm_unit 0 1 0) by lra.
  now rewrite div_by_1.
Qed.

Lemma arctan2_0_0 : arctan2 0 0 = 0.
Proof.
  unfold arctan2. rewrite Rltb_irrefl_0. reflexivity.
Qed.

Lemma altitude_up : asin (1 / norm (0, 0, 1)) = PI / 2.
Proof.
  rewrite (norm_unit 0 0 1) by lra.
  replace (1 / 1) with 1 by field. exact asin_1.
Qed.

Lemma degrees_half_pi : degrees (PI / 2) = 90.
Proof. unfold degrees. field. apply PI_neq0. Qed.

Lemma altitude_of_up : fst (xyz_to_alt_az (0, 0, 1)) = 90.
Proof.
  cbv beta iota zeta delta [xyz_to_alt_az fst].
  rewrite altitude_up. exact degrees_half_pi.
Qed.

Lemma altitude_of_y : fst (xyz_to_alt_az (0, 1, 0)) = 0.
Proof.
  cbv beta iota zeta delta [xyz_to_alt_az fst].
  replace (0 / norm (0, 1, 0)) with 0 by (unfold Rdiv; ring).
  rewrite asin_0. exact degrees_0.
Qed.

Lemma altitude_of_x : fst (xyz_to_alt_az (1, 0, 0)) = 0.
Proof.
  cbv beta iota zeta delta [xyz_to_alt_az fst].
  replace (0 / norm (1, 0, 0)) with 0 by (unfold Rdiv; ring).
  rewrite asin_0. exact degrees_0.
Qed.

(** C8, what fails: with the sun direction (0,1,0) and the satellite
    direction (-1,0,0) the frame is x_s = (0,1,0), y_s = (0,0,1),
    z_s = (1,0,0). The code returns the sun at altitude 90 and the satellite
    at altitude 0; the projection through the transpose of [T] puts the sun
    at altitude 0 and the satellite, which is [z_s], at altitude 90. *)
Lemma observer_frame_not_through_transpose :
  (let '(sun_alt, _, sat_alt, _) :=
     satellite_to_observer_frame (0, 1, 0) (-1, 0, 0) in
   sun_alt = 90 /\ sat_alt = 0)
  /\ (let '(sun_alt, _, sat_alt, _) :=
        Spec.observer_frame_transform (0, 1, 0) (-1, 0, 0) in
      sun_alt = 0 /\ sat_alt = 90)
  /\ satellite_to_observer_frame (0, 1, 0) (-1, 0, 0)
     <> Spec.observer_frame_transform (0, 1, 0) (-1, 0, 0).
Proof.
  unfold satellite_to_observer_frame, Spec.observer_frame_transform.
  rewrite frame_example.
  rewrite (norm_unit 0 1 0), (norm_unit (-1) 0 0) by lra.
  rewrite !div_by_1.
  replace (neg (-1, 0, 0)) with (1, 0, 0) by (unfold neg; vec_eq).
  rewrite !matvec_rows, !matvec_columns.
  replace (0 * 0 + 0 * 1 + 1 * 0, 1 * 0 + 0 * 1 + 0 * 0, 0 * 0 + 1 * 1 + 0 * 0)
    with (0, 0, 1) by vec_eq.
  replace (0 * 1 + 0 * 0 + 1 * 0, 1 * 1 + 0 * 0 + 0 * 0, 0 * 1 + 1 * 0 + 0 * 0)
    with (0, 1, 0) by vec_eq.
  replace (dot (0, 1, 0) (0, 1, 0), dot (0, 0, 1) (0, 1, 0),
           dot (1, 0, 0) (0, 1, 0))
    with (1, 0, 0) by (unfold dot; vec_eq).
  replace (dot (0, 1, 0) (1, 0, 0), dot (0, 0, 1) (1, 0, 0),
           dot (1, 0, 0) (1, 0, 0))
    with (0, 0, 1) by (unfold dot; vec_eq).
  pose proof altitude_of_up as Hup.
  pose proof altitude_of_y as Hy.
  pose proof altitude_of_x as Hx.
  destruct (xyz_to_alt_az (0, 0, 1)) as [alt_up az_up].
  destruct (xyz_to_alt_az (0, 1, 0)) as [alt_y az_y].
  destruct (xyz_to_alt_az (1, 0, 0)) as [alt_x az_x].
  simpl in Hup, Hy, Hx. subst alt_up alt_y alt_x.
  repeat split; try reflexivity.
  intros Heq. injection Heq as E1 E2 E3 E4. lra.
Qed.

(** C8, as the code has it. For non-zero directions, with both directions
    normalised first, [z_s] is the opposite of the satellite direction,
    [T] has the columns [x_s], [y_s], [z_s], and the function returns the
    altitude [asin(z/|v|)] and the azimuth [atan2(y,x) mod 360], in degrees,
    of [T] applied to the sun direction and of [T] applied to the opposite
    of the satellite direction: each is the combination of the columns of
    [T] with the components of the vector, not the projection on them. *)
Theorem satellite_to_observer_frame_applies_T (i_xyz o_xyz : vec3) :
  norm i_xyz <> 0 ->
  norm o_xyz <> 0 ->
  let sun := div i_xyz (norm i_xyz) in
  let sat := div o_xyz (norm o_xyz) in
  let '(x_s, y_s, z_s) := frame i_xyz o_xyz in
  let T := transpose (vstack x_s y_s z_s) in
  let alt_az := fun v : vec3 =>
    let '(x, y, z) := v in
    (degrees (asin (z / norm v)),
     degrees (py_mod (arctan2 y x) (2 * PI))) in
  z_s = neg sat
  /\ transpose T = (x_s, y_s, z_s)
  /\ (forall a b c : R,
        matvec T (a, b, c)
        = (let '(x1, x2, x3) := x_s in
           let '(y1, y2, y3) := y_s in
           let '(z1, z2, z3) := z_s in
           (x1 * a + y1 * b + z1 * c,
            x2 * a + y2 * b + z2 * c,
            x3 * a + y3 * b + z3 * c)))
  /\ satellite_to_observer_frame i_xyz o_xyz
     = (fst (alt_az (matvec T sun)), snd (alt_az (matvec T sun)),
        fst (alt_az (matvec T (neg sat))), snd (alt_az (matvec T (neg sat)))).
Proof.
  intros Hi Ho sun sat.
  unfold satellite_to_observer_frame.
  pose proof (frame_z_s i_xyz o_xyz) as Hz.
  destruct (frame i_xyz o_xyz) as [[x_s y_s] z_s]. simpl in Hz.
  cbv zeta. fold sun sat.
  repeat split.
  - exact Hz.
  - destruct x_s as [[x1 x2] x3], y_s as [[y1 y2] y3], z_s as [[z1 z2] z3].
    reflexivity.
  - intros a b c. apply (matvec_columns x_s y_s z_s (a, b, c)).
  - unfold xyz_to_alt_az.
    destruct (matvec (transpose (vstack x_s y_s z_s)) sun) as [[a b] c].
    destruct (matvec (transpose (vstack x_s y_s z_s)) (neg sat))
      as [[a' b'] c'].
    reflexivity.
Qed.

(** The sun along y, the satellite along -x. *)
Lemma satellite_to_observer_frame_applies_T_witness :
  norm (0, 1, 0) <> 0
  /\ norm (-1, 0, 0) <> 0
  /\ (let sun := div (0, 1, 0) (norm (0, 1, 0)) in
      let sat := div (-1, 0, 0) (norm (-1, 0, 0)) in
      let '(x_s, y_s, z_s) := frame (0, 1, 0) (-1, 0, 0) in
      let T := transpose (vstack x_s y_s z_s) in
      let alt_az := fun v : vec3 =>
        let '(x, y, z) := v in
        (degrees (asin (z / norm v)),
         degrees (py_mod (arctan2 y x) (2 * PI))) in
      z_s = neg sat
      /\ transpose T = (x_s, y_s, z_s)
      /\ (forall a b c : R,
            matvec T (a, b, c)
            = (let '(x1, x2, x3) := x_s in
               let '(y1, y2, y3) := y_s in
               let '(z1, z2, z3) := z_s in
               (x1 * a + y1 * b + z1 * c,
                x2 * a + y2 * b + z2 * c,
                x3 * a + y3 * b + z3 * c)))
      /\ satellite_to_observer_frame (0, 1, 0) (-1, 0, 0)
         = (fst (alt_az (matvec T sun)), snd (alt_az (matvec T sun)),
            fst (alt_az (matvec T (neg sat))),
            snd (alt_az (matvec T (neg sat))))).
Proof.
  assert (H1 : norm (0, 1, 0) <> 0)
    by (rewrite (norm_unit 0 1 0) by lra; lra).
  assert (H2 : norm (-1, 0, 0) <> 0)
    by (rewrite (norm_unit (-1) 0 0) by lra; lra).
  split; [exact H1|]. split; [exact H2|].
  exact (satellite_to_observer_frame_applies_T (0, 1, 0) (-1, 0, 0) H1 H2).
Defined.

End ObserverFrameFacts.

(** ** The theorems at concrete inputs *)

Ltac quadrant_at :=
  try progress unfold EffectiveArea.get_quadrant;
  try progress unfold SolarPhaseAngle.get_quadrant;
  rewrite py_mod_small by lra;
  cmp_cases; try lra; reflexivity.

Lemma EA_get_quadrant_45 : EffectiveArea.get_quadrant 45 = Q1.
Proof. quadrant_at. Qed.

Lemma EA_get_quadrant_60 : EffectiveArea.get_quadrant 60 = Q1.
Proof. quadrant_at. Qed.

Lemma EA_get_quadrant_200 : EffectiveArea.get_quadrant 200 = Q3.
Proof. quadrant_at. Qed.

Lemma EA_get_quadrant_250 : EffectiveArea.get_quadrant 250 = Q3.
Proof. quadrant_at. Qed.

Lemma EA_get_quadrant_280 : EffectiveArea.get_quadrant 280 = Q4.
Proof. quadrant_at. Qed.

Lemma SPA_get_quadrant_45 : SolarPhaseAngle.get_quadrant 45 = Q1.
Proof. quadrant_at. Qed.

Lemma SPA_get_quadrant_280 : SolarPhaseAngle.get_quadrant 280 = Q4.
Proof. quadrant_at. Qed.

(** The first special scenario of the calculator's own test cases,
    (45, -30, 280, 30). *)
Lemma calculate_special_case_remap_witness :
  Spec.is_special (EffectiveArea.get_quadrant 45)
                  (EffectiveArea.get_quadrant 280) = true
  /\ Spec.is_special (SolarPhaseAngle.get_quadrant 45)
                     (SolarPhaseAngle.get_quadrant 280) = true
  /\ (exists phi_i_adj phi_o_adj : R,
        (EffectiveArea.get_quadrant 45 = Q1 -> phi_i_adj = 0)
        /\ (EffectiveArea.get_quadrant 45 = Q4 -> phi_i_adj = 45 - 270)
        /\ phi_o_adj = 280 - 270
        /\ EffectiveArea.calculate_special_case (P := StripModel.ops)
             CONFIG 45 (-30) 280 30
           = ('(non_shadow_area, _) <-
                EffectiveArea.calculate_combined_non_shadow
                  (P := StripModel.ops) CONFIG
                  phi_i_adj (-30) phi_o_adj 30 ;;
              ret non_shadow_area))
  /\ (exists phi_i_adj phi_o_adj : R,
        (SolarPhaseAngle.get_quadrant 45 = Q1 -> phi_i_adj = 0)
        /\ (SolarPhaseAngle.get_quadrant 45 = Q4 -> phi_i_adj = 45 - 270)
        /\ phi_o_adj = 280 - 270
        /\ SolarPhaseAngle.calculate_special_case (P := StripModel.ops)
             CONFIG 45 (-30) 280 30
           = ('(non_shadow_area, _) <-
                SolarPhaseAngle.calculate_combined_non_shadow
                  (P := StripModel.ops) CONFIG
                  phi_i_adj (-30) phi_o_adj 30 ;;
              ret non_shadow_area)).
Proof.
  assert (HE : Spec.is_special (EffectiveArea.get_quadrant 45)
                 (EffectiveArea.get_quadrant 280) = true)
    by (rewrite EA_get_quadrant_45, EA_get_quadrant_280; reflexivity).
  assert (HS : Spec.is_special (SolarPhaseAngle.get_quadrant 45)
                 (SolarPhaseAngle.get_quadrant 280) = true)
    by (rewrite SPA_get_quadrant_45, SPA_get_quadrant_280; reflexivity).
  destruct (calculate_special_case_remap (P := StripModel.ops)
              CONFIG 45 (-30) 280 30) as [TE TS].
  split; [exact HE|]. split; [exact HS|].
  split; [exact (TE HE) | exact (TS HS)].
Defined.

(** Two inputs of the case Q1 x Q3, and the directions (0,0,-1), (-1,0,0)
    against (0,0,-2), (-3,0,0) of the case Q4 x Q3. *)
Lemma calculate_effective_area_quadrant_only_witness :
  EffectiveArea.calculate_effective_area (P := StripModel.ops)
    CONFIG 45 (-30) 200 30
  = EffectiveArea.calculate_effective_area (P := StripModel.ops)
      CONFIG 60 10 250 (-5)
  /\ SolarPhaseAngle.calculate_effective_area (P := StripModel.ops)
       CONFIG 0 0 (-1) (-1) 0 0
     = SolarPhaseAngle.calculate_effective_area (P := StripModel.ops)
         CONFIG 0 0 (-2) (-3) 0 0.
Proof.
  split.
  - apply (proj1 (calculate_effective_area_quadrant_only
                    (P := StripModel.ops) CONFIG
                    45 (-30) 200 30 60 10 250 (-5))).
    + rewrite EA_get_quadrant_45, EA_get_quadrant_60. reflexivity.
    + rewrite EA_get_quadrant_200, EA_get_quadrant_250. reflexivity.
    + rewrite EA_get_quadrant_45, EA_get_quadrant_200. reflexivity.
  - apply (proj2 (calculate_effective_area_quadrant_only
                    (P := StripModel.ops) CONFIG
                    270 0 180 0 270 0 180 0)).
    + apply cartesian_to_spherical_south. lra.
    + apply cartesian_to_spherical_west. lra.
    + apply cartesian_to_spherical_south. lra.
    + apply cartesian_to_spherical_west. lra.
    + reflexivity.
    + reflexivity.
    + rewrite SPA_get_quadrant_270, SPA_get_quadrant_180. reflexivity.
Defined.

Lemma CONFIG_positive : 0 < L CONFIG /\ 0 < D CONFIG /\ 0 < H CONFIG.
Proof. simpl. lra. Qed.

Lemma vertical_at_90 : Rabs (py_mod 90 180 - 90) <= 1e-9.
Proof.
  rewrite py_mod_small by lra.
  replace (90 - 90) with 0 by ring. rewrite Rabs_R0. lra.
Qed.

(** The default panel under vertical light, [phi = 90]. *)
Lemma calculate_shadow_vertical_witness :
  0 < D CONFIG /\ 0 < H CONFIG /\ 0 < L CONFIG
  /\ Rabs (py_mod 90 180 - 90) <= 1e-9
  /\ (exists vertices,
        EffectiveArea.calculate_shadow (P := StripModel.ops) CONFIG 90 0
        = ret (vertices, D CONFIG * Rmin (L CONFIG) (H CONFIG)))
  /\ (exists vertices,
        SolarPhaseAngle.calculate_shadow (P := StripModel.ops) CONFIG 90 0
        = ret (vertices, D CONFIG * Rmin (L CONFIG) (H CONFIG))).
Proof.
  destruct CONFIG_positive as [HL [HD HH]].
  pose proof vertical_at_90 as Hv.
  destruct (calculate_shadow_vertical (PL := StripModel_laws) CONFIG
              HD HH 90 0 HL Hv) as [[_ TE] [[_ TS] _]].
  repeat split; assumption.
Defined.

Lemma strip_shadow_not_empty : Reqb StripModel.strip_shadow 0 = false.
Proof.
  destruct CONFIG_positive as [HL [HD HH]].
  destruct (rectangle_intersection (PolygonSetOpsLaws := StripModel_laws)
              (D CONFIG) (L CONFIG) (H CONFIG) HD HL HH) as [Hne _].
  exact Hne.
Qed.

Lemma EA_strip_shadow :
  EffectiveArea.calculate_shadow (P := StripModel.ops) CONFIG 90 0
  = ret (StripModel.strip_ring StripModel.strip_shadow, StripModel.strip_shadow).
Proof.
  unfold EffectiveArea.calculate_shadow, EffectiveArea.shadow_poly.
  rewrite (isclose_within _ _ _ vertical_at_90).
  change ((if Reqb StripModel.strip_shadow 0
           then ret ([], 0)
           else ret (StripModel.strip_ring StripModel.strip_shadow, StripModel.strip_shadow))
          = ret (StripModel.strip_ring StripModel.strip_shadow, StripModel.strip_shadow)).
  now rewrite strip_shadow_not_empty.
Qed.

Lemma SPA_strip_shadow :
  SolarPhaseAngle.calculate_shadow (P := StripModel.ops) CONFIG 90 0
  = ret (StripModel.strip_ring StripModel.strip_shadow, StripModel.strip_shadow).
Proof.
  unfold SolarPhaseAngle.calculate_shadow, SolarPhaseAngle.shadow_poly.
  rewrite (isclose_within _ _ _ vertical_at_90).
  change ((if Reqb StripModel.strip_shadow 0
           then ret ([], 0)
           else ret (StripModel.strip_ring StripModel.strip_shadow, StripModel.strip_shadow))
          = ret (StripModel.strip_ring StripModel.strip_shadow, StripModel.strip_shadow)).
  now rewrite strip_shadow_not_empty.
Qed.

(** Both sources vertical over the default panel. *)
Lemma combined_non_shadow_invariant_witness :
  0 < D CONFIG /\ 0 < H CONFIG
  /\ EffectiveArea.calculate_shadow (P := StripModel.ops) CONFIG 90 0
     = ret (StripModel.strip_ring StripModel.strip_shadow, StripModel.strip_shadow)
  /\ SolarPhaseAngle.calculate_shadow (P := StripModel.ops) CONFIG 90 0
     = ret (StripModel.strip_ring StripModel.strip_shadow, StripModel.strip_shadow)
  /\ (let rect :=
        Polygon (PolygonSetOps := StripModel.ops)
          (rectangle (D CONFIG) (H CONFIG)) in
      let union :=
        unary_union (PolygonSetOps := StripModel.ops)
          [Polygon (StripModel.strip_ring StripModel.strip_shadow);
           Polygon (StripModel.strip_ring StripModel.strip_shadow)] in
      (exists non_shadow_area,
         EffectiveArea.calculate_combined_non_shadow (P := StripModel.ops)
           CONFIG 90 0 90 0 = ret (non_shadow_area, union)
         /\ non_shadow_area + area (intersection union rect)
            = D CONFIG * H CONFIG)
      /\ (exists non_shadow_area,
            SolarPhaseAngle.calculate_combined_non_shadow
              (P := StripModel.ops) CONFIG 90 0 90 0
            = ret (non_shadow_area, union)
            /\ non_shadow_area + area (intersection union rect)
               = D CONFIG * H CONFIG)).
Proof.
  destruct CONFIG_positive as [HL [HD HH]].
  destruct (combined_non_shadow_invariant (PL := StripModel_laws) CONFIG
              HD HH 90 0 90 0
              (StripModel.strip_ring StripModel.strip_shadow)
              (StripModel.strip_ring StripModel.strip_shadow)
              StripModel.strip_shadow StripModel.strip_shadow) as [TE TS].
  split; [exact HD|]. split; [exact HH|].
  split; [exact EA_strip_shadow|]. split; [exact SPA_strip_shadow|].
  split.
  - exact (TE EA_strip_shadow EA_strip_shadow).
  - exact (TS SPA_strip_shadow SPA_strip_shadow).
Defined.



(** * Further properties of the code *)

(** ** More on the numeric layer *)

Lemma py_mod_shift (a m : R) : - m <= a < 0 -> py_mod a m = a + m.
Proof.
  intros [Hlo Hhi]. unfold py_mod.
  assert (Hm : 0 < m) by lra.
  assert (Hz : Zfloor (a / m) = (-1)%Z).
  { apply Zfloor_eq. simpl. split.
    - apply (Rmult_le_reg_r m); [exact Hm|]. unfold Rdiv.
      rewrite Rmult_assoc, Rinv_l by lra. lra.
    - apply (Rmult_lt_reg_r m); [exact Hm|]. unfold Rdiv.
      rewrite Rmult_assoc, Rinv_l by lra. lra. }
  rewrite Hz. simpl. lra.
Qed.

Lemma py_mod_add_period (a m : R) (k : Z) :
  m <> 0 -> py_mod (a + m * IZR k) m = py_mod a m.
Proof.
  intros Hm. unfold py_mod.
  replace ((a + m * IZR k) / m) with (a / m + IZR k) by (field; exact Hm).
  rewrite Zfloor_addz, plus_IZR. ring.
Qed.

Lemma py_mod_idempotent (a m : R) :
  0 < m -> py_mod (py_mod a m) m = py_mod a m.
Proof. intros Hm. apply py_mod_small, py_mod_bounds, Hm. Qed.

Lemma degrees_le (a b : R) : a <= b -> degrees a <= degrees b.
Proof.
  intros Hab. unfold degrees.
  apply Rmult_le_compat_r; [|exact Hab].
  apply Rlt_le, Rdiv_lt_0_compat; [lra | apply PI_RGT_0].
Qed.

Lemma degrees_lt (a b : R) : a < b -> degrees a < degrees b.
Proof.
  intros Hab. unfold degrees.
  apply Rmult_lt_compat_r; [|exact Hab].
  apply Rdiv_lt_0_compat; [lra | apply PI_RGT_0].
Qed.

Lemma degrees_asin_bounds (x : R) : -90 <= degrees (asin x) <= 90.
Proof.
  destruct (asin_bound x) as [Hlo Hhi].
  apply degrees_le in Hlo. apply degrees_le in Hhi.
  rewrite degrees_neg_half_pi in Hlo.
  replace (degrees (PI / 2)) with 90 in Hhi
    by (unfold degrees; field; apply PI_neq0).
  lra.
Qed.

(** ** More on [cartesian_to_spherical] *)



Lemma norm_positive (x y z : R) :
  sqrt (x ^ 2 + y ^ 2 + z ^ 2) <> 0 -> 0 < sqrt (x ^ 2 + y ^ 2 + z ^ 2).
Proof.
  intros Hn. pose proof (sqrt_pos (x ^ 2 + y ^ 2 + z ^ 2)). lra.
Qed.

Lemma norm_squared (x y z : R) :
  sqrt (x ^ 2 + y ^ 2 + z ^ 2) * sqrt (x ^ 2 + y ^ 2 + z ^ 2)
  = x ^ 2 + y ^ 2 + z ^ 2.
Proof. apply sqrt_sqrt, sum_squares_nonneg. Qed.

(** With a component [x] that is not zero, the normalised [z] is strictly
    inside (-1, 1). *)
Lemma normalized_component_strict (x y z : R) :
  let n := sqrt (x ^ 2 + y ^ 2 + z ^ 2) in
  n <> 0 -> x <> 0 -> -1 < z / n < 1.
Proof.
  intros n Hn Hx.
  pose proof (norm_positive x y z Hn) as Hpos. fold n in Hpos.
  pose proof (norm_squared x y z) as Hsq. fold n in Hsq.
  assert (Hxx : 0 < x * x) by nra.
  assert (Hz : - n < z < n) by (split; nra).
  split.
  - apply (Rmult_lt_reg_r n); [exact Hpos|].
    unfold Rdiv. rewrite Rmult_assoc, Rinv_l by lra. lra.
  - apply (Rmult_lt_reg_r n); [exact Hpos|].
    unfold Rdiv. rewrite Rmult_assoc, Rinv_l by lra. lra.
Qed.

Lemma Rltb_0_div (x n : R) : 0 < n -> Rltb 0 (x / n) = Rltb 0 x.
Proof.
  intros Hn. unfold Rltb.
  destruct (Rlt_dec 0 (x / n)) as [H1|H1], (Rlt_dec 0 x) as [H2|H2];
    try reflexivity; exfalso.
  - apply H2. apply (Rmult_lt_reg_r (/ n)).
    + now apply Rinv_0_lt_compat.
    + now rewrite Rmult_0_l.
  - apply H1. now apply Rdiv_lt_0_compat.
Qed.

Lemma degrees_asin_strict (x : R) :
  -1 < x < 1 -> -90 < degrees (asin x) < 90.
Proof.
  intros Hx. destruct (asin_bound_lt x Hx) as [Hlo Hhi].
  apply degrees_lt in Hlo. apply degrees_lt in Hhi.
  rewrite degrees_neg_half_pi in Hlo.
  replace (degrees (PI / 2)) with 90 in Hhi
    by (unfold degrees; field; apply PI_neq0).
  lra.
Qed.

Lemma sin_radians_shift (d : R) :
  sin (radians (d + 360)) = sin (radians d).
Proof.
  replace (radians (d + 360)) with (radians d + 2 * INR 1 * PI)
    by (unfold radians; simpl; field; apply PI_neq0).
  apply sin_period.
Qed.

Lemma sin_radians_supplement (d : R) :
  sin (radians (180 - d)) = sin (radians d).
Proof.
  replace (radians (180 - d)) with (PI - radians d)
    by (unfold radians; field; apply PI_neq0).
  apply sin_PI_x.
Qed.

(** X3. For a vector that is not zero and whose components are in the
    normal range, the returned [phi] has the sine [z / |v|]; it lies in
    [90, 270] when [x <= 0], and in [0, 90] or in [270, 360) when
    [x > 0]. *)
Theorem cartesian_to_spherical_elevation (x y z : R) :
  let n := sqrt (x ^ 2 + y ^ 2 + z ^ 2) in
  in_normal_range x -> in_normal_range y -> in_normal_range z ->
  n <> 0 ->
  exists phi theta : R,
    SolarPhaseAngle.cartesian_to_spherical x y z = ret (phi, theta)
    /\ sin (radians phi) = z / n
    /\ (x <= 0 -> 90 <= phi <= 270)
    /\ (0 < x -> 0 <= phi <= 90 \/ 270 <= phi < 360).
Proof.
  intros n Rx Ry Rz Hn.
  apply in_normal_range_bounds, float_pow_square_bounded in Rx, Ry, Rz.
  rewrite (cartesian_to_spherical_nonzero x y z Rx Ry Rz Hn). fold n.
  eexists. eexists. split; [reflexivity|].
  pose proof (norm_positive x y z Hn) as Hpos. fold n in Hpos.
  pose proof (normalized_component_range x y z Hn) as Hz. fold n in Hz.
  pose proof (degrees_asin_bounds (z / n)) as Hd.
  assert (Hsin : sin (radians (degrees (asin (z / n)))) = z / n)
    by (rewrite radians_degrees; now apply sin_asin).
  rewrite Rltb_0_div by exact Hpos.
  unfold Rltb. destruct (Rlt_dec 0 x) as [Hx|Hx].
  - rewrite py_mod_idempotent by lra.
    assert (Hs : -1 < z / n < 1)
      by (apply (normalized_component_strict x y z Hn); lra).
    pose proof (degrees_asin_strict _ Hs) as Hds.
    destruct (Rlt_dec (degrees (asin (z / n))) 0) as [Hneg|Hnn].
    + rewrite py_mod_shift by lra.
      rewrite sin_radians_shift. repeat split; try lra.
    + rewrite py_mod_small by lra. repeat split; try lra.
  - rewrite py_mod_small by lra.
    rewrite sin_radians_supplement. repeat split; try lra.
Qed.

Lemma clamp_unit_id (s : R) : -1 <= s <= 1 -> Rmax (-1) (Rmin 1 s) = s.
Proof.
  intros [Hlo Hhi]. rewrite Rmin_right by exact Hhi.
  now apply Rmax_right.
Qed.

(** ** More on the quadrant classifiers and the case table *)

(** X5. The two classifiers give the same quadrant exactly when
    [phi mod 360] is not 270. *)
Theorem get_quadrant_variants_agree (phi_deg : R) :
  EffectiveArea.get_quadrant phi_deg = SolarPhaseAngle.get_quadrant phi_deg
  <-> py_mod phi_deg 360 <> 270.
Proof.
  pose proof (EA_get_quadrant_cases phi_deg) as HE.
  pose proof (SPA_get_quadrant_cases phi_deg) as HS.
  cbv zeta in HE, HS.
  destruct HE as [[Hr E]|[[Hr E]|[[Hr E]|[Hr E]]]];
    destruct HS as [[Hr' E']|[[Hr' E']|[[Hr' E']|[Hr' E']]]];
    rewrite E, E'; split; intros Hq; try discriminate; try reflexivity;
    lra.
Qed.

(** X6. Both classifiers have the period 360: adding a whole number of
    turns to [phi] does not change its quadrant. *)
Theorem get_quadrant_periodic (phi_deg : R) (k : Z) :
  EffectiveArea.get_quadrant (phi_deg + 360 * IZR k)
  = EffectiveArea.get_quadrant phi_deg
  /\ SolarPhaseAngle.get_quadrant (phi_deg + 360 * IZR k)
     = SolarPhaseAngle.get_quadrant phi_deg.
Proof.
  unfold EffectiveArea.get_quadrant, SolarPhaseAngle.get_quadrant.
  rewrite py_mod_add_period by lra. split; reflexivity.
Qed.

Lemma asin_pos (x : R) : 0 < x <= 1 -> 0 < asin x.
Proof.
  intros [Hx H1]. destruct (asin_bound x) as [Hlo Hhi].
  assert (Hs : sin (asin x) = x) by (apply sin_asin; lra).
  destruct (Rlt_dec 0 (asin x)) as [Hp|Hn]; [exact Hp|].
  exfalso. destruct (Req_dec_T (asin x) 0) as [E|Hne].
  - rewrite E, sin_0 in Hs. lra.
  - assert (Hneg : sin (asin x) < 0).
    { apply sin_lt_0_var; [|lra]. pose proof PI_RGT_0. lra. }
    lra.
Qed.

Lemma Rltb_intro (a b : R) : a < b -> Rltb a b = true.
Proof. apply Rltb_true. Qed.

Lemma Rleb_intro (a b : R) : a <= b -> Rleb a b = true.
Proof. apply Rleb_true. Qed.

Lemma Rleb_false (a b : R) : b < a -> Rleb a b = false.
Proof.
  intros Hn. unfold Rleb. destruct (Rle_dec a b); [lra | reflexivity].
Qed.

Lemma Reqb_refl (a : R) : Reqb a a = true.
Proof. now apply Reqb_true. Qed.

Lemma SPA_get_quadrant_0 : SolarPhaseAngle.get_quadrant 0 = Q1.
Proof. quadrant_at. Qed.

Lemma case_table_observer_above (a c : R) (special_case : M R)
  (quad_i quad_o : quadrant) :
  quad_o = Q1 \/ quad_o = Q2 ->
  Spec.case_table a c special_case quad_i quad_o = ret (0, 0).
Proof. intros [-> | ->]; destruct quad_i; reflexivity. Qed.

Section MoreCaseTable.
Context {P : PolygonSetOps}.
Variable self : ShadowCalculator.

(** X8. In the angle-input calculator an observer in the upper half,
    [phi_o mod 360] below 180, gets (0, 0) whatever the sun direction
    is. *)
Theorem observer_above_gives_zero (phi_i theta_i phi_o theta_o : R) :
  py_mod phi_o 360 < 180 ->
  EffectiveArea.calculate_effective_area self phi_i theta_i phi_o theta_o
  = ret (0, 0).
Proof.
  intros Ho. rewrite EA_effective_area_table.
  apply case_table_observer_above.
  destruct (EA_get_quadrant_cases phi_o) as [[Hr E]|[[Hr E]|[[Hr E]|[Hr E]]]];
    auto; lra.
Qed.

(** X9. Whenever the angle-input [calculate_effective_area] returns a
    pair, its chassis component is [A_chassis] if both [phi_i mod 360] and
    [phi_o mod 360] are at least 180, and 0 otherwise. *)
Theorem chassis_area_by_half_planes
  (phi_i theta_i phi_o theta_o A_eff_SA A_eff_chassis : R) :
  EffectiveArea.calculate_effective_area self phi_i theta_i phi_o theta_o
  = ret (A_eff_SA, A_eff_chassis) ->
  A_eff_chassis
  = (if Rleb 180 (py_mod phi_i 360) && Rleb 180 (py_mod phi_o 360)
     then A_chassis self else 0).
Proof.
  rewrite EA_effective_area_table. unfold Spec.case_table.
  destruct (EA_get_quadrant_cases phi_i)
    as [[Hi Ei]|[[Hi Ei]|[[Hi Ei]|[Hi Ei]]]];
    destruct (EA_get_quadrant_cases phi_o)
      as [[Ho Eo]|[[Ho Eo]|[[Ho Eo]|[Ho Eo]]]];
    rewrite Ei, Eo;
    try destruct (EffectiveArea.calculate_special_case self
                    phi_i theta_i phi_o theta_o) as [e|a];
    simpl; intros Hr; try discriminate;
    injection Hr as _ <-;
    unfold Rleb; repeat destruct (Rle_dec _ _); simpl; try reflexivity; lra.
Qed.

End MoreCaseTable.

(** ** More on the shadows *)

Section MoreShadow.
Context {P : PolygonSetOps}.
Variable self : ShadowCalculator.

(** X12. Away from the clamps the two calculators cast the same shadow:
    when [tan(phi) >= 1e-10] and the two offsets [L*cot(phi)*sin(theta)]
    and [L*cot(phi)*cos(theta)] lie in [-1e6, 1e6], the angle-input and
    the Cartesian-input [calculate_shadow] return the same result. *)
Theorem calculate_shadow_variants_agree (phi_deg theta_deg : R) :
  1e-10 <= tan (radians phi_deg) ->
  -1e6 <= L self * (1 / tan (radians phi_deg)) * sin (radians theta_deg)
       <= 1e6 ->
  -1e6 <= L self * (1 / tan (radians phi_deg)) * cos (radians theta_deg)
       <= 1e6 ->
  EffectiveArea.calculate_shadow self phi_deg theta_deg
  = SolarPhaseAngle.calculate_shadow self phi_deg theta_deg.
Proof.
  intros Ht Hx Hy.
  assert (Hpoly : EffectiveArea.shadow_poly self phi_deg theta_deg
                  = SolarPhaseAngle.shadow_poly self phi_deg theta_deg).
  { unfold EffectiveArea.shadow_poly, SolarPhaseAngle.shadow_poly.
    destruct (isclose _ 90 1e-9); [reflexivity|].
    unfold EffectiveArea.x_offset, EffectiveArea.y_offset,
      SolarPhaseAngle.x_offset, SolarPhaseAngle.y_offset,
      EffectiveArea.cot_phi, SolarPhaseAngle.cot_phi.
    cbv zeta.
    rewrite (Reqb_false (tan (radians phi_deg)) 0) by lra.
    rewrite (Rmax_right 1e-10 (tan (radians phi_deg))) by exact Ht.
    rewrite !(Rmin_right 1e6) by lra.
    rewrite !(Rmax_right (-1e6)) by lra.
    reflexivity. }
  unfold EffectiveArea.calculate_shadow, SolarPhaseAngle.calculate_shadow.
  now rewrite Hpoly.
Qed.

End MoreShadow.

(** ** The solar phase angle *)

Lemma cauchy_schwarz (a b c x y z : R) :
  (a * x + b * y + c * z) * (a * x + b * y + c * z)
  <= (a ^ 2 + b ^ 2 + c ^ 2) * (x ^ 2 + y ^ 2 + z ^ 2).
Proof.
  assert (Hid : (a ^ 2 + b ^ 2 + c ^ 2) * (x ^ 2 + y ^ 2 + z ^ 2)
                - (a * x + b * y + c * z) * (a * x + b * y + c * z)
                = (a * y - b * x) ^ 2 + (a * z - c * x) ^ 2
                  + (b * z - c * y) ^ 2) by ring.
  pose proof (pow2_ge_0 (a * y - b * x)).
  pose proof (pow2_ge_0 (a * z - c * x)).
  pose proof (pow2_ge_0 (b * z - c * y)).
  lra.
Qed.

(** The cosine of the angle between two vectors that are not zero lies in
    [-1, 1]. *)
Lemma normalized_dot_range (a b c x y z : R) :
  let ni := sqrt (a ^ 2 + b ^ 2 + c ^ 2) in
  let no := sqrt (x ^ 2 + y ^ 2 + z ^ 2) in
  ni <> 0 -> no <> 0 ->
  -1 <= (a * x + b * y + c * z) / (ni * no) <= 1.
Proof.
  intros ni no Hi Ho.
  pose proof (norm_positive a b c Hi) as Hpi. fold ni in Hpi.
  pose proof (norm_positive x y z Ho) as Hpo. fold no in Hpo.
  pose proof (norm_squared a b c) as Hsi. fold ni in Hsi.
  pose proof (norm_squared x y z) as Hso. fold no in Hso.
  pose proof (cauchy_schwarz a b c x y z) as Hcs.
  rewrite <- Hsi, <- Hso in Hcs.
  set (d := a * x + b * y + c * z) in *.
  assert (Hp : 0 < ni * no) by now apply Rmult_lt_0_compat.
  assert (Hd : - (ni * no) <= d <= ni * no) by (split; nra).
  split.
  - apply (Rmult_le_reg_r (ni * no)); [exact Hp|]. unfold Rdiv.
    rewrite Rmult_assoc, Rinv_l by lra. lra.
  - apply (Rmult_le_reg_r (ni * no)); [exact Hp|]. unfold Rdiv.
    rewrite Rmult_assoc, Rinv_l by lra. lra.
Qed.

Lemma math_acos_in_range (x : R) :
  -1 <= x <= 1 -> PhaseAngle.math_acos x = ret (acos x).
Proof.
  intros [Hlo Hhi]. unfold PhaseAngle.math_acos.
  destruct (Rle_dec (-1) x); [|contradiction].
  destruct (Rle_dec x 1); [reflexivity | contradiction].
Qed.

Lemma phase_angle_nonzero (xi yi zi xo yo zo : R) :
  let ni := sqrt (xi ^ 2 + yi ^ 2 + zi ^ 2) in
  let no := sqrt (xo ^ 2 + yo ^ 2 + zo ^ 2) in
  ni <> 0 -> no <> 0 ->
  PhaseAngle.calculate_solar_phase_angle xi yi zi xo yo zo
  = ret (degrees (acos ((xi * xo + yi * yo + zi * zo) / (ni * no)))).
Proof.
  intros ni no Hi Ho.
  unfold PhaseAngle.calculate_solar_phase_angle.
  rewrite !math_sqrt_sum_squares, !bind_ret. fold ni no.
  rewrite (Reqb_false ni 0), (Reqb_false no 0) by assumption.
  simpl orb. cbv iota zeta.
  pose proof (normalized_dot_range xi yi zi xo yo zo Hi Ho) as Hq.
  fold ni no in Hq.
  rewrite clamp_unit_id by exact Hq.
  rewrite math_acos_in_range by exact Hq.
  now rewrite bind_ret.
Qed.

Lemma phase_angle_null (xi yi zi xo yo zo : R) :
  sqrt (xi ^ 2 + yi ^ 2 + zi ^ 2) = 0 \/ sqrt (xo ^ 2 + yo ^ 2 + zo ^ 2) = 0 ->
  PhaseAngle.calculate_solar_phase_angle xi yi zi xo yo zo = ret 0.
Proof.
  intros Hz.
  unfold PhaseAngle.calculate_solar_phase_angle.
  rewrite !math_sqrt_sum_squares, !bind_ret.
  destruct Hz as [E|E]; rewrite E, Reqb_refl.
  - reflexivity.
  - now rewrite orb_true_r.
Qed.

Lemma degrees_acos_bounds (x : R) : 0 <= degrees (acos x) <= 180.
Proof.
  destruct (acos_bound x) as [Hlo Hhi].
  apply degrees_le in Hlo. apply degrees_le in Hhi.
  rewrite degrees_0 in Hlo.
  replace (degrees PI) with 180 in Hhi
    by (unfold degrees; field; apply PI_neq0).
  lra.
Qed.

Lemma phase_angle_total (xi yi zi xo yo zo : R) :
  exists angle : R,
    PhaseAngle.calculate_solar_phase_angle xi yi zi xo yo zo = ret angle
    /\ 0 <= angle <= 180
    /\ (sqrt (xi ^ 2 + yi ^ 2 + zi ^ 2) = 0
        \/ sqrt (xo ^ 2 + yo ^ 2 + zo ^ 2) = 0 -> angle = 0).
Proof.
  destruct (Req_dec_T (sqrt (xi ^ 2 + yi ^ 2 + zi ^ 2)) 0) as [Ei|Hi];
    [|destruct (Req_dec_T (sqrt (xo ^ 2 + yo ^ 2 + zo ^ 2)) 0) as [Eo|Ho]].
  - exists 0. rewrite phase_angle_null by auto. repeat split; try lra.
  - exists 0. rewrite phase_angle_null by auto. repeat split; try lra.
  - rewrite (phase_angle_nonzero _ _ _ _ _ _ Hi Ho).
    eexists. split; [reflexivity|]. split.
    + apply degrees_acos_bounds.
    + intros [E|E]; contradiction.
Qed.

(** X13. Whenever [calculate_solar_phase_angle] returns an angle, the
    angle lies in [0, 180]. *)
Theorem phase_angle_range (xi yi zi xo yo zo angle : R) :
  PhaseAngle.calculate_solar_phase_angle xi yi zi xo yo zo = ret angle ->
  0 <= angle <= 180.
Proof.
  intros Hr.
  destruct (phase_angle_total xi yi zi xo yo zo) as [a [Ha [Hb _]]].
  rewrite Ha in Hr. injection Hr as <-. exact Hb.
Qed.

(** X14. For two vectors that are not zero and whose components are in
    the normal range, [calculate_solar_phase_angle] returns an angle whose
    cosine is the dot product divided by the product of the lengths. *)
Theorem phase_angle_cosine (xi yi zi xo yo zo : R) :
  let ni := sqrt (xi ^ 2 + yi ^ 2 + zi ^ 2) in
  let no := sqrt (xo ^ 2 + yo ^ 2 + zo ^ 2) in
  in_normal_range xi -> in_normal_range yi -> in_normal_range zi ->
  in_normal_range xo -> in_normal_range yo -> in_normal_range zo ->
  ni <> 0 -> no <> 0 ->
  exists angle : R,
    PhaseAngle.calculate_solar_phase_angle xi yi zi xo yo zo = ret angle
    /\ cos (radians angle) = (xi * xo + yi * yo + zi * zo) / (ni * no).
Proof.
  intros ni no _ _ _ _ _ _ Hi Ho.
  rewrite (phase_angle_nonzero _ _ _ _ _ _ Hi Ho). fold ni no.
  eexists. split; [reflexivity|].
  rewrite radians_degrees. apply cos_acos.
  apply (normalized_dot_range xi yi zi xo yo zo Hi Ho).
Qed.

(** X15. The phase angle is symmetric in the two vectors. *)
Theorem phase_angle_symmetric (xi yi zi xo yo zo : R) :
  PhaseAngle.calculate_solar_phase_angle xi yi zi xo yo zo
  = PhaseAngle.calculate_solar_phase_angle xo yo zo xi yi zi.
Proof.
  destruct (Req_dec_T (sqrt (xi ^ 2 + yi ^ 2 + zi ^ 2)) 0) as [Ei|Hi];
    [|destruct (Req_dec_T (sqrt (xo ^ 2 + yo ^ 2 + zo ^ 2)) 0) as [Eo|Ho]].
  - rewrite !phase_angle_null; auto.
  - rewrite !phase_angle_null; auto.
  - rewrite (phase_angle_nonzero _ _ _ _ _ _ Hi Ho),
            (phase_angle_nonzero _ _ _ _ _ _ Ho Hi).
    f_equal. f_equal. f_equal. field. split; assumption.
Qed.

(** ** The angle with the negative z axis and its filter *)








(** ** The batch loop *)

Section MoreProcessVectors.
Context {P : PolygonSetOps}.

Lemma process_fold (df : list PhaseAngle.row) (acc : list PhaseAngle.row) :
  fold_left PhaseAngle.process_step df acc
  = acc ++ PhaseAngle.process_vectors df.
Proof.
  unfold PhaseAngle.process_vectors.
  revert acc. induction df as [|r df IH] using rev_ind; intros acc.
  - simpl. now rewrite app_nil_r.
  - rewrite !fold_left_app. simpl. rewrite IH.
    unfold PhaseAngle.process_step at 1 3.
    destruct (PhaseAngle.process_row r).
    + reflexivity.
    + now rewrite app_assoc.
Qed.

Lemma process_vectors_app (a b : list PhaseAngle.row) :
  PhaseAngle.process_vectors (a ++ b)
  = PhaseAngle.process_vectors a ++ PhaseAngle.process_vectors b.
Proof.
  unfold PhaseAngle.process_vectors at 1.
  rewrite fold_left_app.
  change (fold_left PhaseAngle.process_step a [])
    with (PhaseAngle.process_vectors a).
  apply process_fold.
Qed.

Lemma process_vectors_one (r : PhaseAngle.row) :
  PhaseAngle.process_vectors [r]
  = match PhaseAngle.process_row r with
    | inr d => [d]
    | inl _ => []
    end.
Proof.
  unfold PhaseAngle.process_vectors, PhaseAngle.process_step. simpl.
  now destruct (PhaseAngle.process_row r).
Qed.

(** X18. The rows of a batch are processed independently and in order:
    the result of a concatenated table is the concatenation of the
    results, and the output never has more rows than the input. *)
Theorem process_vectors_concat (a b : list PhaseAngle.row) :
  PhaseAngle.process_vectors (a ++ b)
  = PhaseAngle.process_vectors a ++ PhaseAngle.process_vectors b
  /\ (List.length (PhaseAngle.process_vectors a) <= List.length a)%nat.
Proof.
  split; [apply process_vectors_app|].
  induction a as [|r a IH].
  - simpl. lia.
  - change (r :: a) with ([r] ++ a).
    rewrite process_vectors_app, length_app, process_vectors_one.
    destruct (PhaseAngle.process_row r); simpl; lia.
Qed.

Lemma process_row_missing (r : PhaseAngle.row) (k : string) :
  In k ["i_x"; "i_y"; "i_z"; "o_x"; "o_y"; "o_z"]%string ->
  PhaseAngle.row_get r k = inl (PhaseAngle.KeyError k) ->
  exists e, PhaseAngle.process_row r = inl e.
Proof.
  intros Hk Hmiss. unfold PhaseAngle.process_row.
  destruct (PhaseAngle.row_get r "i_x") as [e1|xi] eqn:E1; [simpl; eauto|].
  destruct (PhaseAngle.row_get r "i_y") as [e2|yi] eqn:E2; [simpl; eauto|].
  destruct (PhaseAngle.row_get r "i_z") as [e3|zi] eqn:E3; [simpl; eauto|].
  destruct (PhaseAngle.row_get r "o_x") as [e4|xo] eqn:E4; [simpl; eauto|].
  destruct (PhaseAngle.row_get r "o_y") as [e5|yo] eqn:E5; [simpl; eauto|].
  destruct (PhaseAngle.row_get r "o_z") as [e6|zo] eqn:E6; [simpl; eauto|].
  exfalso. simpl in Hk.
  destruct Hk as [<-|[<-|[<-|[<-|[<-|[<-|[]]]]]]]; congruence.
Qed.

(** X19. A row that lacks one of the six columns [i_x], [i_y], [i_z],
    [o_x], [o_y], [o_z] is skipped: the output is the same as without
    that row. *)
Theorem process_vectors_skips_incomplete
  (before after : list PhaseAngle.row) (r : PhaseAngle.row) (k : string) :
  In k ["i_x"; "i_y"; "i_z"; "o_x"; "o_y"; "o_z"]%string ->
  PhaseAngle.row_get r k = inl (PhaseAngle.KeyError k) ->
  PhaseAngle.process_vectors (before ++ r :: after)
  = PhaseAngle.process_vectors (before ++ after).
Proof.
  intros Hk Hmiss.
  destruct (process_row_missing r k Hk Hmiss) as [e He].
  change (r :: after) with ([r] ++ after).
  rewrite !process_vectors_app, process_vectors_one, He.
  reflexivity.
Qed.

(** X20. A row with the six columns on which the calculator returns a
    pair yields exactly one dictionary, in place: it repeats the six
    inputs and adds the phase angle, which lies in [0, 180], and the two
    areas. *)
Theorem process_vectors_keeps_complete
  (before after : list PhaseAngle.row) (r : PhaseAngle.row)
  (xi yi zi xo yo zo A_eff_SA A_eff_chassis : R) :
  PhaseAngle.row_get r "i_x" = inr xi ->
  PhaseAngle.row_get r "i_y" = inr yi ->
  PhaseAngle.row_get r "i_z" = inr zi ->
  PhaseAngle.row_get r "o_x" = inr xo ->
  PhaseAngle.row_get r "o_y" = inr yo ->
  PhaseAngle.row_get r "o_z" = inr zo ->
  SolarPhaseAngle.calculate_effective_area CONFIG xi yi zi xo yo zo
  = ret (A_eff_SA, A_eff_chassis) ->
  exists phase_angle : R,
    0 <= phase_angle <= 180
    /\ PhaseAngle.calculate_solar_phase_angle xi yi zi xo yo zo
       = ret phase_angle
    /\ PhaseAngle.process_vectors (before ++ r :: after)
       = PhaseAngle.process_vectors before
         ++ [[("i_x", xi); ("i_y", yi); ("i_z", zi);
              ("o_x", xo); ("o_y", yo); ("o_z", zo);
              ("phase_angle", phase_angle);
              ("A_eff_SA", A_eff_SA);
              ("A_eff_chassis", A_eff_chassis)]%string]
         ++ PhaseAngle.process_vectors after.
Proof.
  intros E1 E2 E3 E4 E5 E6 Hc.
  destruct (phase_angle_total xi yi zi xo yo zo) as [a [Ha [Hr _]]].
  exists a. split; [exact Hr|]. split; [exact Ha|].
  change (r :: after) with ([r] ++ after).
  rewrite !process_vectors_app, process_vectors_one.
  unfold PhaseAngle.process_row.
  rewrite E1; cbn [PhaseAngle.bind_row]. rewrite E2; cbn [PhaseAngle.bind_row].
  rewrite E3; cbn [PhaseAngle.bind_row]. rewrite E4; cbn [PhaseAngle.bind_row].
  rewrite E5; cbn [PhaseAngle.bind_row]. rewrite E6; cbn [PhaseAngle.bind_row].
  rewrite Ha. cbn [PhaseAngle.bind_row PhaseAngle.lift ret].
  rewrite Hc. reflexivity.
Qed.

End MoreProcessVectors.

(** ** More on the observer frame *)

Module ObserverFrameMore.
Import ObserverFrame.

Lemma alt_az_range (v : vec3) :
  let '(alt, az) := xyz_to_alt_az v in
  -90 <= alt <= 90 /\ 0 <= az <= 360.
Proof.
  destruct v as [[x y] z]. unfold xyz_to_alt_az. cbv zeta.
  split; [apply degrees_asin_bounds|].
  assert (H2pi : 0 < 2 * PI) by (pose proof PI_RGT_0; lra).
  destruct (py_mod_bounds (arctan2 y x) (2 * PI) H2pi) as [Hlo Hhi].
  apply degrees_le in Hlo. apply degrees_lt in Hhi.
  rewrite degrees_0 in Hlo.
  replace (degrees (2 * PI)) with 360 in Hhi
    by (unfold degrees; field; apply PI_neq0).
  lra.
Qed.

(** X21. For directions that are not zero and whose components are in the
    normal range, the two altitudes returned by
    [satellite_to_observer_frame] lie in [-90, 90] and the two azimuths in
    [0, 360]. *)
Theorem satellite_to_observer_frame_ranges (i_xyz o_xyz : vec3) :
  vec_in_normal_range i_xyz ->
  vec_in_normal_range o_xyz ->
  norm i_xyz <> 0 ->
  norm o_xyz <> 0 ->
  let '(sun_alt, sun_az, sat_alt, sat_az) :=
    satellite_to_observer_frame i_xyz o_xyz in
  -90 <= sun_alt <= 90 /\ 0 <= sun_az <= 360
  /\ -90 <= sat_alt <= 90 /\ 0 <= sat_az <= 360.
Proof.
  intros _ _ _ _. unfold satellite_to_observer_frame.
  destruct (frame i_xyz o_xyz) as [[x_s y_s] z_s]. cbv zeta.
  pose proof (alt_az_range
                (matvec (transpose (vstack x_s y_s z_s))
                   (div i_xyz (norm i_xyz)))) as Hsun.
  pose proof (alt_az_range
                (matvec (transpose (vstack x_s y_s z_s))
                   (neg (div o_xyz (norm o_xyz))))) as Hsat.
  destruct (xyz_to_alt_az
              (matvec (transpose (vstack x_s y_s z_s))
                 (div i_xyz (norm i_xyz)))) as [sun_alt sun_az].
  destruct (xyz_to_alt_az
              (matvec (transpose (vstack x_s y_s z_s))
                 (neg (div o_xyz (norm o_xyz))))) as [sat_alt sat_az].
  tauto.
Qed.

(** Vector algebra for the frame. *)
Lemma norm_sqrt_dot (v : vec3) : norm v = sqrt (dot v v).
Proof. destruct v as [[x y] z]. reflexivity. Qed.

Lemma dot_self_nonneg (v : vec3) : 0 <= dot v v.
Proof. destruct v as [[x y] z]. unfold dot. nra. Qed.

Lemma norm_unit_dot (v : vec3) : dot v v = 1 -> norm v = 1.
Proof. intros E. rewrite norm_sqrt_dot, E. apply sqrt_1. Qed.

Lemma dot_normalized (v : vec3) :
  norm v <> 0 -> dot (div v (norm v)) (div v (norm v)) = 1.
Proof.
  intros Hn.
  assert (Hsq : norm v * norm v = dot v v)
    by (rewrite norm_sqrt_dot; apply sqrt_sqrt, dot_self_nonneg).
  destruct v as [[x y] z]. set (n := norm (x, y, z)) in *.
  unfold div, dot in *.
  replace (x / n * (x / n) + y / n * (y / n) + z / n * (z / n))
    with ((x * x + y * y + z * z) / (n * n)) by (field; exact Hn).
  rewrite <- Hsq. field. exact Hn.
Qed.

Lemma dot_neg_neg (v : vec3) : dot (neg v) (neg v) = dot v v.
Proof. destruct v as [[x y] z]. unfold dot, neg. ring. Qed.

Lemma dot_cross_l (a b : vec3) : dot (cross a b) a = 0.
Proof.
  destruct a as [[a1 a2] a3], b as [[b1 b2] b3]. unfold dot, cross. ring.
Qed.

Lemma dot_cross_r (a b : vec3) : dot (cross a b) b = 0.
Proof.
  destruct a as [[a1 a2] a3], b as [[b1 b2] b3]. unfold dot, cross. ring.
Qed.

Lemma dot_div_l (a b : vec3) (k : R) : dot (div a k) b = dot a b / k.
Proof.
  destruct a as [[a1 a2] a3], b as [[b1 b2] b3]. unfold dot, div.
  unfold Rdiv. ring.
Qed.

Lemma dot_comm (a b : vec3) : dot a b = dot b a.
Proof.
  destruct a as [[a1 a2] a3], b as [[b1 b2] b3]. unfold dot. ring.
Qed.

Lemma lagrange (a b : vec3) :
  dot (cross a b) (cross a b) = dot a a * dot b b - dot a b * dot a b.
Proof.
  destruct a as [[a1 a2] a3], b as [[b1 b2] b3]. unfold dot, cross. ring.
Qed.

Lemma cross_cross (a b : vec3) :
  dot a a = 1 -> dot a b = 0 -> cross (cross a b) a = b.
Proof.
  destruct a as [[a1 a2] a3], b as [[b1 b2] b3]. unfold dot, cross.
  intros H1 H0.
  set (aa := a1 * a1 + a2 * a2 + a3 * a3) in *.
  set (ab := a1 * b1 + a2 * b2 + a3 * b3) in *.
  apply ObserverFrameFacts.vec3_eq.
  - transitivity (b1 * aa - a1 * ab); [unfold aa, ab; ring|].
    rewrite H1, H0. ring.
  - transitivity (b2 * aa - a2 * ab); [unfold aa, ab; ring|].
    rewrite H1, H0. ring.
  - transitivity (b3 * aa - a3 * ab); [unfold aa, ab; ring|].
    rewrite H1, H0. ring.
Qed.

(** X23. When the sun direction is not parallel to the satellite
    direction (the norm of the cross product is at least 1e-10), the frame
    [(x_s, y_s, z_s)] is orthonormal and right-handed, [z_s] is the
    opposite of the normalised satellite direction, and [y_s] is
    orthogonal to the sun direction. *)
Theorem frame_orthonormal (i_xyz o_xyz : vec3) :
  norm i_xyz <> 0 ->
  norm o_xyz <> 0 ->
  1e-10 <= norm (cross (neg (div o_xyz (norm o_xyz)))
                       (div i_xyz (norm i_xyz))) ->
  let '(x_s, y_s, z_s) := frame i_xyz o_xyz in
  z_s = neg (div o_xyz (norm o_xyz))
  /\ norm x_s = 1 /\ norm y_s = 1 /\ norm z_s = 1
  /\ dot x_s y_s = 0 /\ dot y_s z_s = 0 /\ dot x_s z_s = 0
  /\ cross x_s y_s = z_s
  /\ dot y_s i_xyz = 0.
Proof.
  intros Hi Ho Hc. unfold frame.
  set (u := div i_xyz (norm i_xyz)) in *.
  set (w := neg (div o_xyz (norm o_xyz))) in *.
  set (c := cross w u) in *.
  cbv zeta. rewrite (Rltb_false (norm c) 1e-10) by lra.
  set (y := div c (norm c)).
  assert (Hcn : norm c <> 0) by lra.
  assert (Hw : dot w w = 1)
    by (unfold w; rewrite dot_neg_neg; now apply dot_normalized).
  assert (Hy : dot y y = 1) by now apply dot_normalized.
  assert (Hyw : dot y w = 0).
  { unfold y. rewrite dot_div_l. unfold c. rewrite dot_cross_l.
    unfold Rdiv. ring. }
  assert (Hyu : dot y u = 0).
  { unfold y. rewrite dot_div_l. unfold c. rewrite dot_cross_r.
    unfold Rdiv. ring. }
  assert (Hx0 : dot (cross y w) (cross y w) = 1).
  { rewrite lagrange, Hy, Hw, Hyw. ring. }
  rewrite (norm_unit_dot _ Hx0), ObserverFrameFacts.div_by_1.
  repeat split.
  - now apply norm_unit_dot.
  - now apply norm_unit_dot.
  - now apply norm_unit_dot.
  - apply dot_cross_l.
  - exact Hyw.
  - apply dot_cross_r.
  - now apply cross_cross.
  - assert (Hui : dot y i_xyz = dot y u * norm i_xyz).
    { unfold u. rewrite (dot_comm y (div _ _)), dot_div_l, (dot_comm y).
      field. exact Hi. }
    rewrite Hui, Hyu. ring.
Qed.

End ObserverFrameMore.

(** ** The sampling of angles and the area coefficients *)

Lemma scaled_sine_range (s R_earth h : R) :
  -1 <= s <= 1 -> 0 < R_earth -> 0 <= h ->
  -1 <= s * R_earth / (R_earth + h) <= 1.
Proof.
  intros Hs HR Hh.
  assert (Hp : 0 < R_earth + h) by lra.
  split.
  - apply (Rmult_le_reg_r (R_earth + h)); [exact Hp|]. unfold Rdiv.
    rewrite Rmult_assoc, Rinv_l by lra. nra.
  - apply (Rmult_le_reg_r (R_earth + h)); [exact Hp|]. unfold Rdiv.
    rewrite Rmult_assoc, Rinv_l by lra. nra.
Qed.

Lemma asin_checked_in_range (x : R) :
  -1 <= x <= 1 -> AltitudeChange.asin_checked x = inr (asin x).
Proof.
  intros [Hlo Hhi]. unfold AltitudeChange.asin_checked.
  now rewrite (Rleb_intro _ _ Hlo), (Rleb_intro _ _ Hhi).
Qed.

Lemma clamp_degrees_asin (x : R) :
  Rmax (Rmin (degrees (asin x)) 90) (-90) = degrees (asin x).
Proof.
  destruct (degrees_asin_bounds x) as [Hlo Hhi].
  rewrite Rmin_left by exact Hhi. now apply Rmax_left.
Qed.

Lemma asin_nonneg (x : R) : 0 <= x <= 1 -> 0 <= asin x.
Proof.
  intros [H0 H1]. destruct (Req_dec_T x 0) as [->|Hne].
  - rewrite asin_0. lra.
  - apply Rlt_le, asin_pos. lra.
Qed.

(** X24. With a positive radius and an altitude that is not negative,
    [calculate_angles] raises nothing; [phi_ob] lies in [-90, 90], the
    clamp changes nothing, its sine is the scaled sine the code computes,
    and it is not negative for [phi1] in [0, 180]; [phi_sun] is
    [phi_ob + phi1 + phi2] below 90 and [phi_ob + 90 - phi1 - phi2] from 90
    on. *)
Theorem calculate_angles_defined (phi1 phi2 R_earth h : R) :
  0 < R_earth -> 0 <= h ->
  exists phi_ob phi_sun : R,
    AltitudeChange.calculate_angles phi1 phi2 R_earth h
    = inr (phi_ob, phi_sun)
    /\ -90 <= phi_ob <= 90
    /\ (phi1 < 90 ->
        sin (radians phi_ob)
        = sin (radians (phi1 + 90)) * R_earth / (R_earth + h)
        /\ phi_sun = phi_ob + phi1 + phi2)
    /\ (90 <= phi1 ->
        sin (radians phi_ob)
        = sin (radians (270 - phi1)) * R_earth / (R_earth + h)
        /\ phi_sun = phi_ob + 90 - phi1 - phi2)
    /\ (0 <= phi1 <= 180 -> 0 <= phi_ob).
Proof.
  intros HR Hh.
  assert (Hd : R_earth + h <> 0) by lra.
  unfold AltitudeChange.calculate_angles, AltitudeChange.div_checked.
  rewrite (Reqb_false _ _ Hd).
  pose proof (scaled_sine_range _ R_earth h
                (SIN_bound (radians (phi1 + 90))) HR Hh) as Hlt.
  pose proof (scaled_sine_range _ R_earth h
                (SIN_bound (radians (270 - phi1))) HR Hh) as Hge.
  assert (Hp : 0 < R_earth + h) by lra.
  pose proof PI_RGT_0 as Hpi.
  destruct (Rlt_dec phi1 90) as [H1|H1].
  - rewrite (Rltb_intro _ _ H1), asin_checked_in_range by exact Hlt.
    cbv zeta. rewrite clamp_degrees_asin.
    eexists. eexists. split; [reflexivity|].
    split; [apply degrees_asin_bounds|].
    split; [intros _; split; [|reflexivity]|split; [intros; lra|]].
    + rewrite radians_degrees. now apply sin_asin.
    + intros [H0 H180].
      replace 0 with (degrees 0) by apply degrees_0.
      apply degrees_le, asin_nonneg. split; [|lra].
      assert (Hs : 0 <= sin (radians (phi1 + 90))).
      { apply sin_ge_0; unfold radians; nra. }
      unfold Rdiv. apply Rmult_le_pos; [nra|].
      apply Rlt_le. now apply Rinv_0_lt_compat.
  - rewrite (Rltb_false phi1 90) by lra.
    rewrite asin_checked_in_range by exact Hge.
    cbv zeta. rewrite clamp_degrees_asin.
    eexists. eexists. split; [reflexivity|].
    split; [apply degrees_asin_bounds|].
    split; [intros; lra|split; [intros _; split; [|ring]|]].
    + rewrite radians_degrees. now apply sin_asin.
    + intros [H0 H180].
      replace 0 with (degrees 0) by apply degrees_0.
      apply degrees_le, asin_nonneg. split; [|lra].
      assert (Hs : 0 <= sin (radians (270 - phi1))).
      { apply sin_ge_0; unfold radians; nra. }
      unfold Rdiv. apply Rmult_le_pos; [nra|].
      apply Rlt_le. now apply Rinv_0_lt_compat.
Qed.

Lemma sin_radians_90 : sin (radians 90) = 1.
Proof.
  replace (radians 90) with (PI / 2) by (unfold radians; field; apply PI_neq0).
  exact sin_PI2.
Qed.

(** X25. [calculate_angles] raises [ZeroDivisionError] when [R + h] is 0,
    and at [phi1 = 0] a math domain error when the altitude is negative
    (between [-R] and 0): the scaled sine [R / (R + h)] is above 1. *)
Theorem calculate_angles_raises (phi1 phi2 R_earth h : R) :
  (R_earth + h = 0 ->
   AltitudeChange.calculate_angles phi1 phi2 R_earth h
   = inl AltitudeChange.ZeroDivisionError)
  /\ (0 < R_earth + h < R_earth ->
      AltitudeChange.calculate_angles 0 phi2 R_earth h
      = inl AltitudeChange.MathDomainError).
Proof.
  split.
  - intros Hz. unfold AltitudeChange.calculate_angles,
      AltitudeChange.div_checked.
    rewrite Hz, Reqb_refl. now destruct (Rltb phi1 90).
  - intros [Hp Hlt]. unfold AltitudeChange.calculate_angles,
      AltitudeChange.div_checked.
    rewrite (Rltb_intro 0 90) by lra.
    rewrite (Reqb_false (R_earth + h) 0) by lra.
    replace (0 + 90) with 90 by ring. rewrite sin_radians_90.
    unfold AltitudeChange.asin_checked.
    rewrite (Rleb_false (1 * R_earth / (R_earth + h)) 1).
    + now rewrite andb_false_r.
    + apply (Rmult_lt_reg_r (R_earth + h)); [exact Hp|]. unfold Rdiv.
      rewrite Rmult_assoc, Rinv_l by lra. lra.
Qed.

Lemma tan_radians_pos (a : R) : 0 < a < 90 -> 0 < tan (radians a).
Proof.
  intros [H0 H90]. pose proof PI_RGT_0.
  apply tan_gt_0; unfold radians; nra.
Qed.

Lemma tan_radians_increasing (a b : R) :
  0 < a < 90 -> 0 < b < 90 -> a <= b -> tan (radians a) <= tan (radians b).
Proof.
  intros Ha Hb Hab. pose proof PI_RGT_0.
  destruct (Req_dec_T a b) as [->|Hne]; [lra|].
  apply Rlt_le, tan_increasing; unfold radians; nra.
Qed.

(** X26. The coefficients of Calculate_Eff_Area.py: [SA_coeff] is never
    negative and is 0 when [phi1 >= 90] or when the smaller of [phi_ob],
    [phi_sun] is not positive; [Chassis_coeff] is 0 for a negative
    [phi_sun] and 1 otherwise. When [phi1 < 90] and the smaller angle lies
    in (0, 90), [SA_coeff] is below 1, it is 0 exactly when the tangent of
    that angle is at most [L/H], and it does not decrease when that angle
    grows. *)
Theorem area_coefficients (phi1 phi_ob phi_sun phi_ob' phi_sun' : R) :
  let '(sa_coeff, chassis_coeff) :=
    AltitudeChange.calculate_effective_area phi1 phi_ob phi_sun in
  let '(sa_coeff', _) :=
    AltitudeChange.calculate_effective_area phi1 phi_ob' phi_sun' in
  let min_angle := Rmin phi_ob phi_sun in
  let min_angle' := Rmin phi_ob' phi_sun' in
  0 <= sa_coeff
  /\ (90 <= phi1 \/ min_angle <= 0 -> sa_coeff = 0)
  /\ chassis_coeff = (if Rltb phi_sun 0 then 0 else 1)
  /\ (phi1 < 90 -> 0 < min_angle < 90 ->
      sa_coeff < 1
      /\ (sa_coeff = 0
          <-> tan (radians min_angle)
              <= AltitudeChange.L / AltitudeChange.H)
      /\ (0 < min_angle' < 90 -> min_angle <= min_angle' ->
          sa_coeff <= sa_coeff')).
Proof.
  unfold AltitudeChange.calculate_effective_area. cbv zeta.
  set (m := Rmin phi_ob phi_sun). set (m' := Rmin phi_ob' phi_sun').
  set (lh := AltitudeChange.L / AltitudeChange.H).
  assert (Hlh : 0 < lh)
    by (unfold lh, AltitudeChange.L, AltitudeChange.H; lra).
  split; [|split; [|split; [reflexivity|]]].
  - destruct (Rltb phi1 90); [apply Rmax_r | lra].
  - intros [H1|Hm].
    + now rewrite (Rltb_false phi1 90) by lra.
    + rewrite (Rltb_false 0 m) by lra.
      destruct (Rltb phi1 90); [|reflexivity]. apply Rmax_left. lra.
  - intros H1 Hm. rewrite (Rltb_intro _ _ H1).
    rewrite (Rltb_intro 0 m) by lra.
    pose proof (tan_radians_pos m Hm) as Ht.
    assert (Hc : 0 < 1 / tan (radians m)) by (apply Rdiv_lt_0_compat; lra).
    assert (Hct : 1 / tan (radians m) * tan (radians m) = 1)
      by (field; lra).
    set (t := tan (radians m)) in *. set (c := 1 / t) in *.
    split; [|split].
    + unfold Rmax. destruct (Rle_dec _ _); nra.
    + unfold Rmax. destruct (Rle_dec (1 - lh * c) 0) as [Hle|Hgt].
      * split; [intros _|reflexivity]. nra.
      * split; [intros E|intros Hle]; [lra|]. exfalso. apply Hgt. nra.
    + intros Hm' Hmm. rewrite (Rltb_intro 0 m') by lra.
      pose proof (tan_radians_pos m' Hm') as Ht'.
      pose proof (tan_radians_increasing m m' Hm Hm' Hmm) as Hinc.
      fold t in Hinc.
      assert (Hc' : 1 / tan (radians m') <= c).
      { unfold c. unfold Rdiv. rewrite !Rmult_1_l.
        apply Rinv_le_contravar; assumption. }
      apply Rle_max_compat_r. nra.
Qed.

(** ** Rotations and unit vectors *)

Module OffOperationFacts.
Import ObserverFrame OffOperation.

Lemma rotation_matrix_parameters (x y z theta : R) :
  let n := sqrt (dot (x, y, z) (x, y, z)) in
  rotation_matrix (x, y, z) theta
  = euler_rodrigues (cos (theta / 2))
      (sin (theta / 2) * - (x / n))
      (sin (theta / 2) * - (y / n))
      (sin (theta / 2) * - (z / n)).
Proof. reflexivity. Qed.

(** The matrix of the formula multiplies dot products by the square of
    [a^2 + b^2 + c^2 + d^2]. *)
Lemma euler_rodrigues_dot (a b c d : R) (u v : vec3) :
  dot (matvec (euler_rodrigues a b c d) u)
      (matvec (euler_rodrigues a b c d) v)
  = (a * a + b * b + c * c + d * d) * (a * a + b * b + c * c + d * d)
    * dot u v.
Proof.
  destruct u as [[u1 u2] u3], v as [[v1 v2] v3].
  unfold euler_rodrigues, matvec, dot. ring.
Qed.

Lemma unit_parameters (x y z theta : R) :
  let n := sqrt (dot (x, y, z) (x, y, z)) in
  n <> 0 ->
  let a := cos (theta / 2) in
  let b := sin (theta / 2) * - (x / n) in
  let c := sin (theta / 2) * - (y / n) in
  let d := sin (theta / 2) * - (z / n) in
  a * a + b * b + c * c + d * d = 1.
Proof.
  intros n Hn a b c d.
  assert (Hsq : n * n = x * x + y * y + z * z).
  { unfold n. apply sqrt_sqrt. unfold dot. nra. }
  assert (Hu : (x / n) * (x / n) + (y / n) * (y / n) + (z / n) * (z / n) = 1).
  { replace (x / n * (x / n) + y / n * (y / n) + z / n * (z / n))
      with ((x * x + y * y + z * z) / (n * n)) by (field; exact Hn).
    rewrite <- Hsq. field. exact Hn. }
  pose proof (sin2_cos2 (theta / 2)) as Hsc. unfold Rsqr in Hsc.
  unfold a, b, c, d.
  set (s := sin (theta / 2)) in *. set (co := cos (theta / 2)) in *.
  replace (co * co + s * - (x / n) * (s * - (x / n))
           + s * - (y / n) * (s * - (y / n))
           + s * - (z / n) * (s * - (z / n)))
    with (co * co + s * s * (x / n * (x / n) + y / n * (y / n)
                             + z / n * (z / n))) by ring.
  rewrite Hu. lra.
Qed.

(** X27. A rotation about an axis that is not zero keeps dot products,
    hence lengths and angles: [rotate(u) . rotate(v) = u . v]. *)
Theorem rotate_vector_isometry (u v axis : vec3) (angle_deg : R) :
  sqrt (dot axis axis) <> 0 ->
  dot (rotate_vector u axis angle_deg) (rotate_vector v axis angle_deg)
  = dot u v
  /\ norm (rotate_vector u axis angle_deg) = norm u.
Proof.
  intros Hn.
  assert (Hdot : forall p q : vec3,
            dot (rotate_vector p axis angle_deg)
                (rotate_vector q axis angle_deg) = dot p q).
  { intros p q. destruct axis as [[x y] z]. unfold rotate_vector. cbv zeta.
    rewrite rotation_matrix_parameters. cbv zeta.
    rewrite euler_rodrigues_dot.
    rewrite (unit_parameters x y z (radians angle_deg) Hn). ring. }
  split; [apply Hdot|].
  rewrite !ObserverFrameMore.norm_sqrt_dot. now rewrite Hdot.
Qed.

(** X28. The rotation leaves its axis in place, and a turn of 0 or of 360
    degrees leaves every vector in place. *)
Theorem rotate_vector_fixed (v axis : vec3) :
  sqrt (dot axis axis) <> 0 ->
  (forall angle_deg : R, rotate_vector axis axis angle_deg = axis)
  /\ rotate_vector v axis 0 = v
  /\ rotate_vector v axis 360 = v.
Proof.
  intros Hn. destruct axis as [[x y] z], v as [[v1 v2] v3].
  set (n := sqrt (dot (x, y, z) (x, y, z))) in *.
  split; [|split].
  - intros angle_deg. unfold rotate_vector. cbv zeta.
    rewrite rotation_matrix_parameters. cbv zeta. fold n.
    pose proof (unit_parameters x y z (radians angle_deg) Hn) as Hu.
    cbv zeta in Hu. fold n in Hu.
    set (a := cos (radians angle_deg / 2)) in *.
    set (s := sin (radians angle_deg / 2)) in *.
    assert (Hx : x = n * (x / n)) by (field; exact Hn).
    assert (Hy : y = n * (y / n)) by (field; exact Hn).
    assert (Hz : z = n * (z / n)) by (field; exact Hn).
    set (p := x / n) in *. set (q := y / n) in *. set (r := z / n) in *.
    unfold euler_rodrigues, matvec, dot.
    rewrite Hx, Hy, Hz.
    apply ObserverFrameFacts.vec3_eq.
    + transitivity (n * p * (a * a + s * - p * (s * - p)
                             + s * - q * (s * - q) + s * - r * (s * - r)));
        [ring | rewrite Hu; ring].
    + transitivity (n * q * (a * a + s * - p * (s * - p)
                             + s * - q * (s * - q) + s * - r * (s * - r)));
        [ring | rewrite Hu; ring].
    + transitivity (n * r * (a * a + s * - p * (s * - p)
                             + s * - q * (s * - q) + s * - r * (s * - r)));
        [ring | rewrite Hu; ring].
  - unfold rotate_vector. cbv zeta.
    rewrite rotation_matrix_parameters. cbv zeta.
    replace (radians 0 / 2) with 0 by (unfold radians; field).
    rewrite sin_0, cos_0.
    unfold euler_rodrigues, matvec, dot.
    apply ObserverFrameFacts.vec3_eq; ring.
  - unfold rotate_vector. cbv zeta.
    rewrite rotation_matrix_parameters. cbv zeta.
    replace (radians 360 / 2) with PI
      by (unfold radians; field; apply PI_neq0).
    rewrite sin_PI, cos_PI.
    unfold euler_rodrigues, matvec, dot.
    apply ObserverFrameFacts.vec3_eq; ring.
Qed.


End OffOperationFacts.

(** ** The directions on the viewing sphere *)

Module VectorPairsFacts.
Import ObserverFrame VectorPairs.

Lemma collect_all (f : nat -> AltitudeChange.angle_exn + vec3)
  (Q : vec3 -> Prop) (l : list nat) :
  (forall i, In i l -> exists p, f i = inr p /\ Q p) ->
  exists ps, collect (map f l) = inr ps
             /\ List.length ps = List.length l
             /\ Forall Q ps.
Proof.
  induction l as [|i l IH]; intros Hall.
  - exists []. repeat split. constructor.
  - destruct (Hall i (or_introl eq_refl)) as [p [Hp Hq]].
    destruct IH as [ps [Hc [Hlen HQ]]].
    { intros j Hj. apply Hall. now right. }
    exists (p :: ps). simpl. rewrite Hp, Hc. repeat split.
    + simpl. now rewrite Hlen.
    + now constructor.
Qed.

Lemma sphere_point_unit (samples i : nat) :
  (2 <= samples)%nat -> (i < samples)%nat ->
  exists p, sphere_point samples i = inr p /\ dot p p = 1.
Proof.
  intros Hs Hi. unfold sphere_point, AltitudeChange.div_checked. cbv zeta.
  assert (Hd : 0 < INR (samples - 1)) by (apply lt_0_INR; lia).
  rewrite (Reqb_false (INR (samples - 1)) 0) by lra.
  eexists. split; [reflexivity|].
  set (q := INR i / INR (samples - 1)).
  assert (Hq : 0 <= q <= 1).
  { unfold q. split.
    - apply Rmult_le_pos; [apply pos_INR | apply Rlt_le, Rinv_0_lt_compat, Hd].
    - apply (Rmult_le_reg_r (INR (samples - 1))); [exact Hd|].
      unfold Rdiv. rewrite Rmult_assoc, Rinv_l by lra.
      rewrite Rmult_1_r, Rmult_1_l. apply le_INR. lia. }
  set (y := 1 - q * 2).
  assert (Hy : 0 <= 1 - y * y) by (unfold y; nra).
  pose proof (sqrt_sqrt _ Hy) as Hr.
  set (radius := sqrt (1 - y * y)) in *.
  set (theta := PI * (3 - sqrt 5) * INR i).
  pose proof (sin2_cos2 theta) as Hsc. unfold Rsqr in Hsc.
  unfold dot.
  replace (cos theta * radius * (cos theta * radius) + y * y
           + sin theta * radius * (sin theta * radius))
    with ((sin theta * sin theta + cos theta * cos theta)
          * (radius * radius) + y * y) by ring.
  rewrite Hsc, Hr. ring.
Qed.

(** X30. [fibonacci_sphere_sampling] returns no point for 0 samples,
    raises [ZeroDivisionError] for 1 sample, and for 2 samples or more
    returns that many points, each on the unit sphere. *)
Theorem fibonacci_sphere_sampling_unit (samples : nat) :
  fibonacci_sphere_sampling 0 = inr []
  /\ fibonacci_sphere_sampling 1 = inl AltitudeChange.ZeroDivisionError
  /\ ((2 <= samples)%nat ->
      exists points,
        fibonacci_sphere_sampling samples = inr points
        /\ List.length points = samples
        /\ Forall (fun p => norm p = 1) points).
Proof.
  split; [reflexivity|]. split.
  - unfold fibonacci_sphere_sampling, sphere_point,
      AltitudeChange.div_checked. simpl.
    now rewrite Reqb_refl.
  - intros Hs. unfold fibonacci_sphere_sampling.
    destruct (collect_all (sphere_point samples) (fun p => norm p = 1)
                (seq 0 samples)) as [ps [Hc [Hlen HQ]]].
    + intros i Hi. apply in_seq in Hi.
      destruct (sphere_point_unit samples i Hs) as [p [Hp Hu]]; [lia|].
      exists p. split; [exact Hp|].
      now apply ObserverFrameMore.norm_unit_dot.
    + exists ps. rewrite length_seq in Hlen. auto.
Qed.

End VectorPairsFacts.

(** ** The further properties at concrete inputs *)

Lemma norm_south : sqrt (0 ^ 2 + 0 ^ 2 + (-1) ^ 2) <> 0.
Proof.
  replace (0 ^ 2 + 0 ^ 2 + (-1) ^ 2) with 1 by ring. rewrite sqrt_1. lra.
Qed.

Lemma norm_west : sqrt ((-1) ^ 2 + 0 ^ 2 + 0 ^ 2) <> 0.
Proof.
  replace ((-1) ^ 2 + 0 ^ 2 + 0 ^ 2) with 1 by ring. rewrite sqrt_1. lra.
Qed.

Lemma in_normal_range_1 : in_normal_range 1.
Proof. apply in_normal_range_between. lra. Qed.

Lemma in_normal_range_neg_1 : in_normal_range (-1).
Proof. apply in_normal_range_between. lra. Qed.


Lemma cartesian_to_spherical_elevation_witness :
  in_normal_range 0
  /\ in_normal_range (-1)
  /\ sqrt (0 ^ 2 + 0 ^ 2 + (-1) ^ 2) <> 0
  /\ 0 <= 0
  /\ exists phi theta : R,
       SolarPhaseAngle.cartesian_to_spherical 0 0 (-1) = ret (phi, theta)
       /\ sin (radians phi) = -1 / sqrt (0 ^ 2 + 0 ^ 2 + (-1) ^ 2)
       /\ 90 <= phi <= 270.
Proof.
  split; [exact in_normal_range_0|]. split; [exact in_normal_range_neg_1|].
  split; [exact norm_south|]. split; [lra|].
  destruct (cartesian_to_spherical_elevation 0 0 (-1)
              in_normal_range_0 in_normal_range_0 in_normal_range_neg_1
              norm_south)
    as [phi [theta [H1 [H2 [H3 _]]]]].
  exists phi, theta. split; [exact H1|]. split; [exact H2|].
  apply H3. lra.
Defined.

(** The observer at [phi_o = 90], straight above. *)
Lemma observer_above_gives_zero_witness :
  py_mod 90 360 < 180
  /\ EffectiveArea.calculate_effective_area (P := StripModel.ops)
       CONFIG 45 0 90 0 = ret (0, 0).
Proof.
  assert (H1 : py_mod 90 360 < 180) by (rewrite py_mod_small; lra).
  split; [exact H1|].
  exact (observer_above_gives_zero (P := StripModel.ops) CONFIG
           45 0 90 0 H1).
Defined.

Lemma EA_get_quadrant_225 : EffectiveArea.get_quadrant 225 = Q3.
Proof. quadrant_at. Qed.

Lemma EA_case_3_3 :
  EffectiveArea.calculate_effective_area (P := StripModel.ops)
    CONFIG 225 0 200 60 = ret (A_SA CONFIG, A_chassis CONFIG).
Proof.
  rewrite EA_effective_area_table.
  now rewrite EA_get_quadrant_225, EA_get_quadrant_200.
Qed.

(** The test case 3-3 of the calculator, (225, 0, 200, 60). *)
Lemma chassis_area_by_half_planes_witness :
  EffectiveArea.calculate_effective_area (P := StripModel.ops)
    CONFIG 225 0 200 60 = ret (A_SA CONFIG, A_chassis CONFIG)
  /\ A_chassis CONFIG
     = (if Rleb 180 (py_mod 225 360) && Rleb 180 (py_mod 200 360)
        then A_chassis CONFIG else 0).
Proof.
  split; [exact EA_case_3_3|].
  exact (chassis_area_by_half_planes (P := StripModel.ops) CONFIG
           225 0 200 60 (A_SA CONFIG) (A_chassis CONFIG) EA_case_3_3).
Defined.

Lemma sin_radians_0 : sin (radians 0) = 0.
Proof.
  replace (radians 0) with 0 by (unfold radians; lra). exact sin_0.
Qed.

Lemma cos_radians_0 : cos (radians 0) = 1.
Proof.
  replace (radians 0) with 0 by (unfold radians; lra). exact cos_0.
Qed.

(** The light direction [phi = 45], [theta = 0] over the default panel. *)
Lemma calculate_shadow_variants_agree_witness :
  1e-10 <= tan (radians 45)
  /\ -1e6 <= L CONFIG * (1 / tan (radians 45)) * sin (radians 0) <= 1e6
  /\ -1e6 <= L CONFIG * (1 / tan (radians 45)) * cos (radians 0) <= 1e6
  /\ EffectiveArea.calculate_shadow (P := StripModel.ops) CONFIG 45 0
     = SolarPhaseAngle.calculate_shadow (P := StripModel.ops) CONFIG 45 0.
Proof.
  assert (H1 : 1e-10 <= tan (radians 45)) by (rewrite tan_radians_45; lra).
  assert (H2 : -1e6 <= L CONFIG * (1 / tan (radians 45)) * sin (radians 0)
               <= 1e6).
  { rewrite tan_radians_45, sin_radians_0. simpl. lra. }
  assert (H3 : -1e6 <= L CONFIG * (1 / tan (radians 45)) * cos (radians 0)
               <= 1e6).
  { rewrite tan_radians_45, cos_radians_0. simpl. lra. }
  split; [exact H1|]. split; [exact H2|]. split; [exact H3|].
  exact (calculate_shadow_variants_agree (P := StripModel.ops) CONFIG
           45 0 H1 H2 H3).
Defined.

Lemma sqrt_zero_vector : sqrt (0 ^ 2 + 0 ^ 2 + 0 ^ 2) = 0.
Proof. replace (0 ^ 2 + 0 ^ 2 + 0 ^ 2) with 0 by ring. exact sqrt_0. Qed.

(** The zero vector against the direction (1, 0, 0). *)
Lemma phase_angle_range_witness :
  PhaseAngle.calculate_solar_phase_angle 0 0 0 1 0 0 = ret 0
  /\ 0 <= 0 <= 180.
Proof.
  assert (Hr : PhaseAngle.calculate_solar_phase_angle 0 0 0 1 0 0 = ret 0)
    by (apply phase_angle_null; left; exact sqrt_zero_vector).
  split; [exact Hr|].
  exact (phase_angle_range 0 0 0 1 0 0 0 Hr).
Defined.

Lemma phase_angle_cosine_witness :
  in_normal_range 0
  /\ in_normal_range (-1)
  /\ sqrt (0 ^ 2 + 0 ^ 2 + (-1) ^ 2) <> 0
  /\ sqrt ((-1) ^ 2 + 0 ^ 2 + 0 ^ 2) <> 0
  /\ exists angle : R,
       PhaseAngle.calculate_solar_phase_angle 0 0 (-1) (-1) 0 0 = ret angle
       /\ cos (radians angle)
          = (0 * -1 + 0 * 0 + -1 * 0)
            / (sqrt (0 ^ 2 + 0 ^ 2 + (-1) ^ 2)
               * sqrt ((-1) ^ 2 + 0 ^ 2 + 0 ^ 2)).
Proof.
  split; [exact in_normal_range_0|]. split; [exact in_normal_range_neg_1|].
  split; [exact norm_south|]. split; [exact norm_west|].
  exact (phase_angle_cosine 0 0 (-1) (-1) 0 0
           in_normal_range_0 in_normal_range_0 in_normal_range_neg_1
           in_normal_range_neg_1 in_normal_range_0 in_normal_range_0
           norm_south norm_west).
Defined.




(** A row without any column. *)
Lemma process_vectors_skips_incomplete_witness :
  In "i_x"%string ["i_x"; "i_y"; "i_z"; "o_x"; "o_y"; "o_z"]%string
  /\ PhaseAngle.row_get [] "i_x" = inl (PhaseAngle.KeyError "i_x")
  /\ PhaseAngle.process_vectors (P := StripModel.ops) ([] ++ [] :: [])
     = PhaseAngle.process_vectors (P := StripModel.ops) ([] ++ []).
Proof.
  assert (Hk : In "i_x"%string
                  ["i_x"; "i_y"; "i_z"; "o_x"; "o_y"; "o_z"]%string)
    by (left; reflexivity).
  split; [exact Hk|]. split; [reflexivity|].
  exact (process_vectors_skips_incomplete (P := StripModel.ops)
           [] [] [] "i_x" Hk eq_refl).
Defined.

(** The direction (1, 0, 0) is converted to (0, 0), the direction
    (0, 0, 1) to (90, 0). *)
Lemma cartesian_to_spherical_ahead :
  SolarPhaseAngle.cartesian_to_spherical 1 0 0 = ret (0, 0).
Proof.
  unfold SolarPhaseAngle.cartesian_to_spherical.
  rewrite !float_pow_square_bounded by lra.
  rewrite !bind_ret, math_sqrt_sum_squares, bind_ret.
  replace (1 ^ 2 + 0 ^ 2 + 0 ^ 2) with 1 by ring.
  rewrite sqrt_1, (Reqb_false 1 0) by lra. cbv beta iota zeta.
  replace (0 / 1) with 0 by field. replace (1 / 1) with 1 by field.
  rewrite math_asin_in_range by lra. rewrite bind_ret.
  rewrite asin_0, degrees_0, (Rltb_intro 0 1) by lra.
  rewrite (py_mod_small 0 360) by lra.
  rewrite (isclose_far (Rabs 0) 90 1e-9).
  - rewrite cos_0. replace (0 / 1) with 0 by field.
    rewrite clamp_unit_0, math_asin_in_range by lra.
    rewrite !bind_ret, asin_0, degrees_0, py_mod_small by lra.
    reflexivity.
  - lra.
  - rewrite Rabs_R0; lra.
  - lra.
  - rewrite Rabs_R0. unfold Rabs. destruct (Rcase_abs (0 - 90)); lra.
Qed.

Lemma cartesian_to_spherical_up :
  SolarPhaseAngle.cartesian_to_spherical 0 0 1 = ret (90, 0).
Proof.
  unfold SolarPhaseAngle.cartesian_to_spherical.
  rewrite !float_pow_square_bounded by lra.
  rewrite !bind_ret, math_sqrt_sum_squares, bind_ret.
  replace (0 ^ 2 + 0 ^ 2 + 1 ^ 2) with 1 by ring.
  rewrite sqrt_1, (Reqb_false 1 0) by lra. cbv beta iota zeta.
  replace (0 / 1) with 0 by field. replace (1 / 1) with 1 by field.
  rewrite math_asin_in_range by lra. rewrite bind_ret.
  rewrite asin_1, Rltb_irrefl_0.
  replace (degrees (PI / 2)) with 90
    by (unfold degrees; field; apply PI_neq0).
  replace (180 - 90) with 90 by ring.
  rewrite (Rabs_pos_eq 90) by lra.
  rewrite (isclose_within 90 90 1e-9).
  - rewrite !bind_ret, py_mod_small by lra. reflexivity.
  - replace (90 - 90) with 0 by ring. rewrite Rabs_R0. lra.
Qed.

Lemma SPA_get_quadrant_90 : SolarPhaseAngle.get_quadrant 90 = Q2.
Proof. quadrant_at. Qed.

Lemma SPA_observer_above :
  SolarPhaseAngle.calculate_effective_area (P := StripModel.ops)
    CONFIG 1 0 0 0 0 1 = ret (0, 0).
Proof.
  rewrite SPA_effective_area_table.
  rewrite cartesian_to_spherical_ahead, cartesian_to_spherical_up.
  rewrite !bind_ret. cbv beta iota zeta.
  now rewrite SPA_get_quadrant_0, SPA_get_quadrant_90.
Qed.

(** A row with the sun along x and the observer along z. *)
Lemma process_vectors_keeps_complete_witness :
  let r : PhaseAngle.row :=
    [("i_x", 1); ("i_y", 0); ("i_z", 0);
     ("o_x", 0); ("o_y", 0); ("o_z", 1)]%string in
  SolarPhaseAngle.calculate_effective_area (P := StripModel.ops)
    CONFIG 1 0 0 0 0 1 = ret (0, 0)
  /\ exists phase_angle : R,
       0 <= phase_angle <= 180
       /\ PhaseAngle.calculate_solar_phase_angle 1 0 0 0 0 1
          = ret phase_angle
       /\ PhaseAngle.process_vectors (P := StripModel.ops) ([] ++ r :: [])
          = PhaseAngle.process_vectors (P := StripModel.ops) []
            ++ [[("i_x", 1); ("i_y", 0); ("i_z", 0);
                 ("o_x", 0); ("o_y", 0); ("o_z", 1);
                 ("phase_angle", phase_angle);
                 ("A_eff_SA", 0);
                 ("A_eff_chassis", 0)]%string]
            ++ PhaseAngle.process_vectors (P := StripModel.ops) [].
Proof.
  intros r. split; [exact SPA_observer_above|].
  exact (process_vectors_keeps_complete (P := StripModel.ops) [] [] r
           1 0 0 0 0 1 0 0
           eq_refl eq_refl eq_refl eq_refl eq_refl eq_refl
           SPA_observer_above).
Defined.

Lemma calculate_angles_defined_witness :
  0 < 6378 /\ 0 <= 550
  /\ exists phi_ob phi_sun : R,
       AltitudeChange.calculate_angles 0 (-27) 6378 550
       = inr (phi_ob, phi_sun)
       /\ -90 <= phi_ob <= 90
       /\ phi_sun = phi_ob + 0 + -27
       /\ 0 <= phi_ob.
Proof.
  assert (HR : 0 < 6378) by lra. assert (Hh : 0 <= 550) by lra.
  split; [exact HR|]. split; [exact Hh|].
  destruct (calculate_angles_defined 0 (-27) 6378 550 HR Hh)
    as [phi_ob [phi_sun [H1 [H2 [H3 [_ H5]]]]]].
  exists phi_ob, phi_sun. split; [exact H1|]. split; [exact H2|].
  split; [apply H3; lra | apply H5; lra].
Defined.

Lemma calculate_angles_raises_witness :
  1 + -1 = 0
  /\ 0 < 2 + -1 < 2
  /\ AltitudeChange.calculate_angles 0 (-27) 1 (-1)
     = inl AltitudeChange.ZeroDivisionError
  /\ AltitudeChange.calculate_angles 0 (-27) 2 (-1)
     = inl AltitudeChange.MathDomainError.
Proof.
  assert (H1 : 1 + -1 = 0) by lra.
  assert (H2 : 0 < 2 + -1 < 2) by lra.
  split; [exact H1|]. split; [exact H2|]. split.
  - exact (proj1 (calculate_angles_raises 0 (-27) 1 (-1)) H1).
  - exact (proj2 (calculate_angles_raises 0 (-27) 2 (-1)) H2).
Defined.

(** The sun and the observer at 45 degrees, then at 60 degrees. *)
Lemma area_coefficients_witness :
  0 < 90
  /\ 0 < Rmin 45 45 < 90
  /\ 0 < Rmin 60 60 < 90
  /\ Rmin 45 45 <= Rmin 60 60
  /\ fst (AltitudeChange.calculate_effective_area 0 45 45) < 1
  /\ fst (AltitudeChange.calculate_effective_area 0 45 45)
     <= fst (AltitudeChange.calculate_effective_area 0 60 60).
Proof.
  assert (H1 : 0 < 90) by lra.
  assert (E45 : Rmin 45 45 = 45) by (apply Rmin_left; lra).
  assert (E60 : Rmin 60 60 = 60) by (apply Rmin_left; lra).
  assert (H2 : 0 < Rmin 45 45 < 90) by (rewrite E45; lra).
  assert (H3 : 0 < Rmin 60 60 < 90) by (rewrite E60; lra).
  assert (H4 : Rmin 45 45 <= Rmin 60 60) by (rewrite E45, E60; lra).
  pose proof (area_coefficients 0 45 45 60 60) as T.
  unfold AltitudeChange.calculate_effective_area in T.
  cbv beta iota zeta in T.
  destruct T as [_ [_ [_ T]]].
  destruct (T H1 H2) as [Tlt [_ Tmono]].
  split; [exact H1|]. split; [exact H2|]. split; [exact H3|].
  split; [exact H4|].
  split; [exact Tlt | exact (Tmono H3 H4)].
Defined.

Module VectorWitnesses.
Import ObserverFrame.

Lemma norm_sun : norm (0, 1, 0) <> 0.
Proof. rewrite (ObserverFrameFacts.norm_unit 0 1 0) by lra. lra. Qed.

Lemma norm_sat : norm (-1, 0, 0) <> 0.
Proof. rewrite (ObserverFrameFacts.norm_unit (-1) 0 0) by lra. lra. Qed.

Lemma not_parallel :
  1e-10 <= norm (cross (neg (div (-1, 0, 0) (norm (-1, 0, 0))))
                       (div (0, 1, 0) (norm (0, 1, 0)))).
Proof.
  rewrite (ObserverFrameFacts.norm_unit 0 1 0),
          (ObserverFrameFacts.norm_unit (-1) 0 0) by lra.
  rewrite !ObserverFrameFacts.div_by_1.
  replace (cross (neg (-1, 0, 0)) (0, 1, 0)) with (0, 0, 1)
    by (unfold cross, neg; apply ObserverFrameFacts.vec3_eq; ring).
  rewrite (ObserverFrameFacts.norm_unit 0 0 1) by lra. lra.
Qed.

Lemma range_sun : vec_in_normal_range (0, 1, 0).
Proof.
  repeat split; first [exact in_normal_range_0 | exact in_normal_range_1].
Qed.

Lemma range_sat : vec_in_normal_range (-1, 0, 0).
Proof.
  repeat split;
    first [exact in_normal_range_0 | exact in_normal_range_neg_1].
Qed.

Lemma satellite_to_observer_frame_ranges_witness :
  vec_in_normal_range (0, 1, 0)
  /\ vec_in_normal_range (-1, 0, 0)
  /\ norm (0, 1, 0) <> 0
  /\ norm (-1, 0, 0) <> 0
  /\ (let '(sun_alt, sun_az, sat_alt, sat_az) :=
        satellite_to_observer_frame (0, 1, 0) (-1, 0, 0) in
      -90 <= sun_alt <= 90 /\ 0 <= sun_az <= 360
      /\ -90 <= sat_alt <= 90 /\ 0 <= sat_az <= 360).
Proof.
  split; [exact range_sun|]. split; [exact range_sat|].
  split; [exact norm_sun|]. split; [exact norm_sat|].
  exact (ObserverFrameMore.satellite_to_observer_frame_ranges
           (0, 1, 0) (-1, 0, 0) range_sun range_sat norm_sun norm_sat).
Defined.

Lemma frame_orthonormal_witness :
  norm (0, 1, 0) <> 0
  /\ norm (-1, 0, 0) <> 0
  /\ 1e-10 <= norm (cross (neg (div (-1, 0, 0) (norm (-1, 0, 0))))
                          (div (0, 1, 0) (norm (0, 1, 0))))
  /\ (let '(x_s, y_s, z_s) := frame (0, 1, 0) (-1, 0, 0) in
      z_s = neg (div (-1, 0, 0) (norm (-1, 0, 0)))
      /\ norm x_s = 1 /\ norm y_s = 1 /\ norm z_s = 1
      /\ dot x_s y_s = 0 /\ dot y_s z_s = 0 /\ dot x_s z_s = 0
      /\ cross x_s y_s = z_s
      /\ dot y_s (0, 1, 0) = 0).
Proof.
  split; [exact norm_sun|]. split; [exact norm_sat|].
  split; [exact not_parallel|].
  exact (ObserverFrameMore.frame_orthonormal (0, 1, 0) (-1, 0, 0)
           norm_sun norm_sat not_parallel).
Defined.

(** The axis (1, -1, 0) and the vector (0, 0, -1) of the script. *)
Lemma axis_nonzero : sqrt (dot (1, -1, 0) (1, -1, 0)) <> 0.
Proof.
  assert (0 < sqrt (dot (1, -1, 0) (1, -1, 0))).
  { apply sqrt_lt_R0. unfold dot. lra. }
  lra.
Qed.

Lemma rotate_vector_isometry_witness :
  sqrt (dot (1, -1, 0) (1, -1, 0)) <> 0
  /\ dot (OffOperation.rotate_vector (0, 0, -1) (1, -1, 0) 30)
         (OffOperation.rotate_vector (0, 1, 0) (1, -1, 0) 30)
     = dot (0, 0, -1) (0, 1, 0)
  /\ norm (OffOperation.rotate_vector (0, 0, -1) (1, -1, 0) 30)
     = norm (0, 0, -1).
Proof.
  split; [exact axis_nonzero|].
  exact (OffOperationFacts.rotate_vector_isometry
           (0, 0, -1) (0, 1, 0) (1, -1, 0) 30 axis_nonzero).
Defined.

Lemma rotate_vector_fixed_witness :
  sqrt (dot (1, -1, 0) (1, -1, 0)) <> 0
  /\ (forall angle_deg : R,
        OffOperation.rotate_vector (1, -1, 0) (1, -1, 0) angle_deg
        = (1, -1, 0))
  /\ OffOperation.rotate_vector (0, 0, -1) (1, -1, 0) 0 = (0, 0, -1)
  /\ OffOperation.rotate_vector (0, 0, -1) (1, -1, 0) 360 = (0, 0, -1).
Proof.
  split; [exact axis_nonzero|].
  exact (OffOperationFacts.rotate_vector_fixed
           (0, 0, -1) (1, -1, 0) axis_nonzero).
Defined.



Lemma fibonacci_sphere_sampling_unit_witness :
  (2 <= 2)%nat
  /\ exists points,
       VectorPairs.fibonacci_sphere_sampling 2 = inr points
       /\ List.length points = 2%nat
       /\ Forall (fun p => norm p = 1) points.
Proof.
  assert (H2 : (2 <= 2)%nat) by lia.
  split; [exact H2|].
  exact (proj2 (proj2 (VectorPairsFacts.fibonacci_sphere_sampling_unit 2))
           H2).
Defined.

End VectorWitnesses.
